(** * pyethereum/peer.py: the per-connection engine [Peer]

    A shallow embedding of [class Peer] (src/pyethereum/peer.py) and the
    properties of its handshake, dispatch, send and receive steps.

    The Python object, its socket, its outbound queue, the clock and every
    observable effect (signals, log records, sleeps, socket calls, queue
    puts) live in one explicit state [peer]; a method is a function from
    that state to a [result]: it returns, raises, or runs out of fuel
    (only the two [while] loops and the re-entrant dispatch consume fuel). *)

From Stdlib Require Import ZArith Lia Ascii String DecimalString.
From stdpp Require Import base option list strings gmap.

Set Warnings "-register-all".
Local Open Scope string_scope.
Local Open Scope Z_scope.
Local Open Scope list_scope.

(** ** Values on the wire *)

(** What the codec hands back for a payload: a byte string or a nested list
    (Python 2 [str] and [list]). *)
Inductive item : Type :=
| Str (s : string)
| Lst (l : list item).

(** Python truthiness of a payload item: [''] and [[]] are false. *)
Definition truthy (x : item) : bool :=
  match x with
  | Str "" => false
  | Str _ => true
  | Lst [] => false
  | Lst _ => true
  end.

(** [b or d]. *)
Definition item_or (b d : item) : item := if truthy b then b else d.

(** [packet[n:]] for [n >= 0]. *)
Fixpoint str_drop (n : nat) (s : string) : string :=
  match n, s with
  | O, _ => s
  | S _, EmptyString => EmptyString
  | S n', String _ s' => str_drop n' s'
  end.

(** [packet[:n]] for [n >= 0]. *)
Fixpoint str_take (n : nat) (s : string) : string :=
  match n, s with
  | O, _ => EmptyString
  | S _, EmptyString => EmptyString
  | S n', String a s' => String a (str_take n' s')
  end.

(** [not packet] on a byte string. *)
Definition str_empty (s : string) : bool :=
  match s with EmptyString => true | String _ _ => false end.

(** [sep.join(l)]. *)
Fixpoint join (sep : string) (l : list string) : string :=
  match l with
  | [] => ""
  | [x] => x
  | x :: rest => x +:+ sep +:+ join sep rest
  end.

(** [s.count(c)] for a one-character needle. *)
Fixpoint str_count (c : ascii) (s : string) : nat :=
  match s with
  | EmptyString => O
  | String a s' => (if Ascii.eqb a c then 1 else 0)%nat + str_count c s'
  end.

(** [str(n)] for a non-negative integer. *)
Definition str_of_N (n : N) : string := NilZero.string_of_uint (N.to_uint n).

(** [str(z)] / [repr(z)] for an integer. *)
Definition str_of_Z (z : Z) : string := NilZero.string_of_int (Z.to_int z).

(** The character [chr(34)]. *)
Definition dquote : string := String (ascii_of_nat 34) EmptyString.
Definition squote : string := String (ascii_of_nat 39) EmptyString.

(** ** Exceptions *)

Inductive exn_class : Type :=
| IOError | IndexError | KeyError | ValueError | TypeError
| AssertionError | Exception.

Record exn : Type := Exn { exn_cls : exn_class; exn_msg : string }.

Definition is_IOError (e : exn) : bool :=
  match exn_cls e with IOError => true | _ => false end.

(** Modelled from the spec: [utils.big_endian_to_int] (imported as [idec])
    is not under src/; the spec calls the fields "big-endian-integer-decodable
    byte strings" and the port "decoded to an integer". A byte string is read
    most significant byte first; the empty string is 0. *)
Fixpoint big_endian_acc (acc : Z) (s : string) : Z :=
  match s with
  | EmptyString => acc
  | String c s' => big_endian_acc (acc * 256 + Z.of_N (N_of_ascii c)) s'
  end.

Definition big_endian_to_int (s : string) : Z := big_endian_acc 0 s.

(** [idec] applied to a payload item; only byte strings are decodable. *)
Definition idec (x : item) : exn + Z :=
  match x with
  | Str s => inr (big_endian_to_int s)
  | Lst _ => inl (Exn TypeError "big_endian_to_int: not a byte string")
  end.

(** ** Collaborators *)

(** The codec [packeter] (module [packeter], not under src/): the constants,
    the encoders called by [Peer], the decoder and the reason table. The
    encoders are taken with the arguments [Peer] passes them; [dump_Disconnect]
    is called without any. *)
Class Packeter : Type := {
  PROTOCOL_VERSION : Z;
  NETWORK_ID : Z;
  load_cmd : item -> exn + (string * list item);
  dump_Hello : string;
  dump_Ping : string;
  dump_Pong : string;
  dump_Disconnect : string;
  dump_GetPeers : string;
  dump_Peers : list item -> string;
  dump_GetTransactions : string;
  dump_Transactions : list item -> string;
  dump_Blocks : list item -> string;
  dump_GetChain : list item -> string;
  dump_NotInChain : string;
  disconnect_reasons_map_by_id : gmap Z string
}.

(** Outcome of one socket call: [socket.error] is an [IOError]. *)
Inductive io (A : Type) : Type :=
| IOFail (msg : string)
| IOOk (a : A).
Arguments IOFail {A} msg.
Arguments IOOk {A} a.

(** The socket object behind [self._connection]: each call moves the socket
    to a new state and answers or fails. *)
Class Connection (Sock : Type) : Type := {
  conn_send : Sock -> string -> Sock * io nat;
  conn_recv : Sock -> nat -> Sock * io string;
  conn_shutdown : Sock -> Sock * io unit;
  conn_close : Sock -> Sock
}.

(** ** Observable effects *)

Inductive callback : Type :=
| cb_send_Peers | cb_send_Transactions | cb_send_Blocks.

Inductive event : Type :=
| Sig_packet_sending (packet : string)
| Sig_packet_sent (packet : string)
| Sig_disconnect_requested
| Sig_new_peer_received (peer_ip : string) (peer_port : Z) (pid : item)
| Sig_new_transactions_received (transactions : list item)
| Sig_new_blocks_received (blocks : list item)
| Sig_request_data_async (kind : string) (req : option (list item))
                         (cb : callback)
| Log_debug (msg : string)
| Log_info (msg : string)
| Log_warn (msg : string)
| Time_sleep (ms : Z)
| Queue_put (packet : string)
| Sock_send (buf : string)
| Sock_recv (bufsize : nat)
| Sock_shutdown
| Sock_close.

Definition is_log (e : event) : bool :=
  match e with
  | Log_debug _ | Log_info _ | Log_warn _ => true
  | _ => false
  end.

(** The calls that reach the socket object. *)
Definition is_sock (e : event) : bool :=
  match e with
  | Sock_send _ | Sock_recv _ | Sock_shutdown | Sock_close => true
  | _ => false
  end.

Definition is_sock_io (e : event) : bool :=
  match e with
  | Sock_send _ | Sock_recv _ => true
  | _ => false
  end.

(** ** The peer object and its world *)

Record peer (Sock : Type) : Type := mkPeer {
  _stopped : bool;
  _connection : Sock;
  ip : string;
  port : option Z;
  node_id : item;
  response_queue : list string;
  hello_received : bool;
  hello_sent : bool;
  last_valid_packet_received : Z;
  last_asked_for_peers : Z;
  last_pinged : Z;
  now : Z;
  trace : list event
}.
Arguments mkPeer {Sock}.
Arguments _stopped {Sock}.
Arguments _connection {Sock}.
Arguments ip {Sock}.
Arguments port {Sock}.
Arguments node_id {Sock}.
Arguments response_queue {Sock}.
Arguments hello_received {Sock}.
Arguments hello_sent {Sock}.
Arguments last_valid_packet_received {Sock}.
Arguments last_asked_for_peers {Sock}.
Arguments last_pinged {Sock}.
Arguments now {Sock}.
Arguments trace {Sock}.

(** A method either returns, raises, or exhausts the fuel of the model. *)
Inductive result (St A : Type) : Type :=
| Ret (a : A) (s : St)
| Raise (e : exn) (s : St)
| OutOfFuel.
Arguments Ret {St A} a s.
Arguments Raise {St A} e s.
Arguments OutOfFuel {St A}.

Definition M (St A : Type) : Type := St -> result St A.

(** The state a run ends in ([d] when the fuel ran out). *)
Definition state_of {St A} (r : result St A) (d : St) : St :=
  match r with
  | Ret _ s => s
  | Raise _ s => s
  | OutOfFuel => d
  end.

Definition ret {St A} (a : A) : M St A := fun s => Ret a s.

Definition raise {St A} (e : exn) : M St A := fun s => Raise e s.

Definition bind {St A B} (m : M St A) (k : A -> M St B) : M St B :=
  fun s =>
    match m s with
    | Ret a s' => k a s'
    | Raise e s' => Raise e s'
    | OutOfFuel => OutOfFuel
    end.

(** [try: m except IOError as e: h e]. *)
Definition try_IOError {St A} (m : M St A) (h : exn -> M St A) : M St A :=
  fun s =>
    match m s with
    | Raise e s' => if is_IOError e then h e s' else Raise e s'
    | r => r
    end.

(** Lift a pure fallible computation. *)
Definition lift {St A} (r : exn + A) : M St A :=
  match r with
  | inl e => raise e
  | inr a => ret a
  end.

Declare Scope peer_scope.
Delimit Scope peer_scope with peer.
Notation "x <- m ;; k" := (bind m (fun x => k))
  (at level 100, m at next level, right associativity) : peer_scope.
Notation "m ;; k" := (bind m (fun _ => k))
  (at level 100, right associativity) : peer_scope.
Local Open Scope peer_scope.

(** ** Field updates *)

Section Updates.
Context {Sock : Type}.

Definition set_stopped (v : bool) (s : peer Sock) : peer Sock :=
  mkPeer v (_connection s) (ip s) (port s) (node_id s) (response_queue s)
    (hello_received s) (hello_sent s) (last_valid_packet_received s)
    (last_asked_for_peers s) (last_pinged s) (now s) (trace s).

Definition set_connection (v : Sock) (s : peer Sock) : peer Sock :=
  mkPeer (_stopped s) v (ip s) (port s) (node_id s) (response_queue s)
    (hello_received s) (hello_sent s) (last_valid_packet_received s)
    (last_asked_for_peers s) (last_pinged s) (now s) (trace s).

Definition set_node_id (v : item) (s : peer Sock) : peer Sock :=
  mkPeer (_stopped s) (_connection s) (ip s) (port s) v (response_queue s)
    (hello_received s) (hello_sent s) (last_valid_packet_received s)
    (last_asked_for_peers s) (last_pinged s) (now s) (trace s).

Definition set_response_queue (v : list string) (s : peer Sock) : peer Sock :=
  mkPeer (_stopped s) (_connection s) (ip s) (port s) (node_id s) v
    (hello_received s) (hello_sent s) (last_valid_packet_received s)
    (last_asked_for_peers s) (last_pinged s) (now s) (trace s).

Definition set_hello_received (v : bool) (s : peer Sock) : peer Sock :=
  mkPeer (_stopped s) (_connection s) (ip s) (port s) (node_id s)
    (response_queue s) v (hello_sent s) (last_valid_packet_received s)
    (last_asked_for_peers s) (last_pinged s) (now s) (trace s).

Definition set_hello_sent (v : bool) (s : peer Sock) : peer Sock :=
  mkPeer (_stopped s) (_connection s) (ip s) (port s) (node_id s)
    (response_queue s) (hello_received s) v (last_valid_packet_received s)
    (last_asked_for_peers s) (last_pinged s) (now s) (trace s).

Definition set_last_valid_packet_received (v : Z) (s : peer Sock) : peer Sock :=
  mkPeer (_stopped s) (_connection s) (ip s) (port s) (node_id s)
    (response_queue s) (hello_received s) (hello_sent s) v
    (last_asked_for_peers s) (last_pinged s) (now s) (trace s).

Definition set_last_pinged (v : Z) (s : peer Sock) : peer Sock :=
  mkPeer (_stopped s) (_connection s) (ip s) (port s) (node_id s)
    (response_queue s) (hello_received s) (hello_sent s)
    (last_valid_packet_received s) (last_asked_for_peers s) v (now s)
    (trace s).

Definition set_now (v : Z) (s : peer Sock) : peer Sock :=
  mkPeer (_stopped s) (_connection s) (ip s) (port s) (node_id s)
    (response_queue s) (hello_received s) (hello_sent s)
    (last_valid_packet_received s) (last_asked_for_peers s) (last_pinged s) v
    (trace s).

Definition set_trace (v : list event) (s : peer Sock) : peer Sock :=
  mkPeer (_stopped s) (_connection s) (ip s) (port s) (node_id s)
    (response_queue s) (hello_received s) (hello_sent s)
    (last_valid_packet_received s) (last_asked_for_peers s) (last_pinged s)
    (now s) v.

(** Record an effect at the end of the trace. *)
Definition emit (e : event) (s : peer Sock) : peer Sock :=
  set_trace (trace s ++ [e]) s.

End Updates.

(** The [_recv_*] attributes of a [Peer] instance: what
    [hasattr(self, func_name)] finds. [_recv_packet] is one of them. *)
Inductive recv_method : Type :=
| m_packet | m_Hello | m_Ping | m_Pong | m_Disconnect | m_GetPeers | m_Peers
| m_GetTransactions | m_Transactions | m_Blocks | m_GetChain | m_NotInChain.

Definition recv_methods : gmap string recv_method :=
  list_to_map
    [("_recv_packet", m_packet); ("_recv_Hello", m_Hello);
     ("_recv_Ping", m_Ping); ("_recv_Pong", m_Pong);
     ("_recv_Disconnect", m_Disconnect); ("_recv_GetPeers", m_GetPeers);
     ("_recv_Peers", m_Peers); ("_recv_GetTransactions", m_GetTransactions);
     ("_recv_Transactions", m_Transactions); ("_recv_Blocks", m_Blocks);
     ("_recv_GetChain", m_GetChain); ("_recv_NotInChain", m_NotInChain)].

(** ** class Peer *)

Section Peer.
Context {Sock : Type} {conn : Connection Sock} {pk : Packeter}.

Abbreviation St := (peer Sock).

(** *** Effects used by the methods *)

Definition get : M St St := fun s => Ret s s.

Definition modify (f : St -> St) : M St unit := fun s => Ret tt (f s).

(** [signals.<name>.send(...)] and [signals.request_data_async(...)]:
    fire-and-forget, recorded in the trace. *)
Definition signal (e : event) : M St unit := modify (emit e).

Definition logger_debug (msg : string) : M St unit :=
  modify (emit (Log_debug msg)).

Definition logger_info (msg : string) : M St unit :=
  modify (emit (Log_info msg)).

Definition logger_warn (msg : string) : M St unit :=
  modify (emit (Log_warn msg)).

(** [time.time()]. *)
Definition time_time : M St Z := fun s => Ret (now s) s.

(** [time.sleep(d)], [d] in milliseconds. *)
Definition time_sleep (ms : Z) : M St unit :=
  modify (fun s => emit (Time_sleep ms) (set_now (now s + ms) s)).

(** [l[i]]. *)
Definition index (l : list item) (i : nat) : M St item :=
  match l !! i with
  | Some x => ret x
  | None => raise (Exn IndexError "list index out of range")
  end.

(** [for x in l: body(x)]. *)
Fixpoint for_each {A} (l : list A) (body : A -> M St unit) : M St unit :=
  match l with
  | [] => ret tt
  | x :: rest => body x ;; for_each rest body
  end.

(** [sock.send(buf)] on the handle [c]. *)
Definition socket_send (c : Sock) (buf : string) : M St nat :=
  fun s =>
    let '(c', r) := conn_send c buf in
    let s' := emit (Sock_send buf) (set_connection c' s) in
    match r with
    | IOFail msg => Raise (Exn IOError msg) s'
    | IOOk n => Ret n s'
    end.

(** [sock.recv(bufsize)] on the handle [c]. *)
Definition socket_recv (c : Sock) (bufsize : nat) : M St string :=
  fun s =>
    let '(c', r) := conn_recv c bufsize in
    let s' := emit (Sock_recv bufsize) (set_connection c' s) in
    match r with
    | IOFail msg => Raise (Exn IOError msg) s'
    | IOOk chunk => Ret chunk s'
    end.

(** [self._connection.shutdown(socket.SHUT_RDWR)]. *)
Definition socket_shutdown : M St unit :=
  fun s =>
    let '(c', r) := conn_shutdown (_connection s) in
    let s' := emit Sock_shutdown (set_connection c' s) in
    match r with
    | IOFail msg => Raise (Exn IOError msg) s'
    | IOOk _ => Ret tt s'
    end.

(** [self._connection.close()]. *)
Definition socket_close : M St unit :=
  modify (fun s => emit Sock_close
                     (set_connection (conn_close (_connection s)) s)).

(** *** Construction and identity *)

(** Modelled from the spec: the base class [common.StoppableLoopThread] is
    not under src/; its constructor starts with the lifecycle flag false,
    [stop()] sets it ("monotonic one-way transition false->true") and
    [stopped()] reads it. *)
Definition StoppableLoopThread_stop : M St unit := modify (set_stopped true).

Definition stopped : M St bool := fun s => Ret (_stopped s) s.

(** [Peer.__init__(connection, ip, port)] at clock reading [t]. *)
Definition Peer_init (connection : Sock) (ip : string) (port : option Z)
    (t : Z) : exn + St :=
  if Nat.eqb (str_count "." ip) 3
  then inr (mkPeer false connection ip port (Str "") [] false false t 0 0 t [])
  else inl (Exn AssertionError "").

(** [repr(self)]. *)
Definition repr (s : St) : string :=
  "<Peer(" +:+ ip s +:+ ":"
    +:+ match port s with Some p => str_of_Z p | None => "None" end
    +:+ ")>".

(** *** Lifecycle *)

Definition connection : M St Sock :=
  b <- stopped ;;
  if b then raise (Exn IOError "Connection was stopped")
  else s <- get ;; ret (_connection s).

Definition stop : M St unit :=
  StoppableLoopThread_stop ;;
  try_IOError socket_shutdown
    (fun e =>
       s <- get ;;
       logger_debug ("shutting down failed " +:+ repr s +:+ " "
                       +:+ dquote +:+ exn_msg e +:+ dquote)) ;;
  socket_close.

Definition send_packet (response : string) : M St unit :=
  modify (fun s => emit (Queue_put response)
                     (set_response_queue (response_queue s ++ [response]) s)).

(** [self.response_queue.get(block=False)]; [None] stands for
    [Queue.Empty]. *)
Definition queue_get_nowait : M St (option string) :=
  fun s =>
    match response_queue s with
    | [] => Ret None s
    | p :: q => Ret (Some p) (set_response_queue q s)
    end.

(** *** The send step *)

(** The [while packet:] loop of [_process_send]; the result is [packet]
    when the loop is left. *)
Fixpoint send_loop (fuel : nat) (packet : string) : M St string :=
  if str_empty packet then ret packet
  else
    match fuel with
    | O => fun _ => OutOfFuel
    | S fuel' =>
        signal (Sig_packet_sending packet) ;;
        r <- try_IOError
               (c <- connection ;;
                n <- socket_send c packet ;;
                ret (Some (str_drop n packet)))
               (fun e =>
                  s <- get ;;
                  logger_debug (repr s +:+ ": send packet failed, "
                                  +:+ exn_msg e) ;;
                  stop ;;
                  ret None) ;;
        match r with
        | None => ret packet
        | Some packet' =>
            signal (Sig_packet_sent packet') ;;
            send_loop fuel' packet'
        end
    end.

Definition _process_send (fuel : nat) : M St nat :=
  p <- queue_get_nowait ;;
  packet <- send_loop fuel (default "" p) ;;
  if str_empty packet then ret 0%nat else ret (String.length packet).

(** *** Senders *)

Definition send_Hello : M St unit :=
  send_packet dump_Hello ;;
  modify (set_hello_sent true).

Definition send_Ping : M St unit :=
  send_packet dump_Ping ;;
  t <- time_time ;;
  modify (set_last_pinged t).

Definition send_Pong : M St unit := send_packet dump_Pong.

(** [reason] is accepted and never read. *)
Definition send_Disconnect (reason : option string) : M St unit :=
  send_packet dump_Disconnect ;;
  time_sleep 2000 ;;
  signal Sig_disconnect_requested.

Definition send_GetPeers : M St unit := send_packet dump_GetPeers.

Definition send_Peers (peers : list item) : M St unit :=
  let packet := dump_Peers peers in
  if str_empty packet then ret tt else send_packet packet.

Definition send_GetTransactions : M St unit :=
  logger_info "asking for transactions" ;;
  send_packet dump_GetTransactions.

Definition send_Transactions (transactions : list item) : M St unit :=
  send_packet (dump_Transactions transactions).

Definition send_Blocks (blocks : list item) : M St unit :=
  send_packet (dump_Blocks blocks).

Definition send_GetChain (request_data : list item) : M St unit :=
  send_packet (dump_GetChain request_data).

Definition send_NotInChain : M St unit := send_packet dump_NotInChain.

(** *** Receive handlers *)

Definition _recv_Hello (data : list item) : M St unit :=
  d0 <- index data 0 ;;
  version <- lift (idec d0) ;;
  if negb (version =? PROTOCOL_VERSION)
  then send_Disconnect (Some "Incompatible network protocols")
  else
    d1 <- index data 1 ;;
    network <- lift (idec d1) ;;
    if negb (network =? NETWORK_ID)
    then send_Disconnect (Some "Wrong genesis block")
    else
      modify (set_hello_received true) ;;
      (if Nat.eqb (length data) 6
       then d5 <- index data 5 ;; modify (set_node_id d5)
       else ret tt) ;;
      s <- get ;;
      if negb (hello_sent s) then send_Hello else ret tt.

Definition _recv_Ping (data : list item) : M St unit := send_Pong.

Definition _recv_Pong (data : list item) : M St unit := send_GetTransactions.

(** [packeter.disconnect_reasons_map_by_id[k]]. *)
Definition reason_by_id (k : Z) : M St string :=
  match disconnect_reasons_map_by_id !! k with
  | Some reason => ret reason
  | None => raise (Exn KeyError (str_of_Z k))
  end.

Definition _recv_Disconnect (data : list item) : M St unit :=
  (if Nat.eqb (length data) 0 then ret tt
   else
     d0 <- index data 0 ;;
     k <- lift (idec d0) ;;
     reason <- reason_by_id k ;;
     s <- get ;;
     logger_info (repr s +:+ " sent disconnect, " +:+ reason +:+ " ")) ;;
  signal Sig_disconnect_requested.

Definition _recv_GetPeers (data : list item) : M St unit :=
  signal (Sig_request_data_async "peers" (Some data) cb_send_Peers).

(** [ip, port, pid = entry]: a list of three items, or a string of three
    characters. *)
Definition unpack3 (entry : item) : exn + (item * item * item) :=
  match entry with
  | Lst [a; b; c] => inr (a, b, c)
  | Str (String a (String b (String c EmptyString))) =>
      inr (Str (String a ""), Str (String b ""), Str (String c ""))
  | _ => inl (Exn ValueError "wrong number of values to unpack")
  end.

(** [ord(x)]. *)
Definition ord (x : item) : exn + N :=
  match x with
  | Str (String c EmptyString) => inr (N_of_ascii c)
  | _ => inl (Exn TypeError "ord() expected a character")
  end.

(** [[str(ord(b or '\x00')) for b in ip]], left to right. *)
Fixpoint ip_parts (bs : list item) : exn + list string :=
  match bs with
  | [] => inr []
  | b :: rest =>
      match ord (item_or b (Str (String zero EmptyString))) with
      | inl e => inl e
      | inr n =>
          match ip_parts rest with
          | inl e => inl e
          | inr parts => inr (str_of_N n :: parts)
          end
      end
  end.

(** The pure part of one iteration of [_recv_Peers]: unpack, assert, render
    the address, decode the port. *)
Definition parse_peer (entry : item) : exn + (string * Z * item) :=
  match unpack3 entry with
  | inl e => inl e
  | inr (Str _, _, _) => inl (Exn AssertionError "")
  | inr (Lst bs, port_item, pid) =>
      match ip_parts bs with
      | inl e => inl e
      | inr parts =>
          match idec port_item with
          | inl e => inl e
          | inr p => inr (join "." parts, p, pid)
          end
      end
  end.

Definition _recv_Peers (data : list item) : M St unit :=
  for_each data (fun entry =>
    peer <- lift (parse_peer entry) ;;
    let '(addr, p, pid) := peer in
    logger_debug ("received peer address: " +:+ addr +:+ ":"
                    +:+ str_of_Z p) ;;
    signal (Sig_new_peer_received addr p pid)).

Definition _recv_GetTransactions (data : list item) : M St unit :=
  logger_info "asking for transactions" ;;
  signal (Sig_request_data_async "transactions" None cb_send_Transactions).

(** The log call passes [len(data)] and [self] as arguments of a message
    without placeholders; the record is handed to [logging] as is. *)
Definition _recv_Transactions (data : list item) : M St unit :=
  logger_info "received transactions" ;;
  signal (Sig_new_transactions_received data).

Definition _recv_Blocks (data : list item) : M St unit :=
  signal (Sig_new_blocks_received data).

Definition _recv_GetChain (request_data : list item) : M St unit :=
  signal (Sig_request_data_async "blocks" (Some request_data) cb_send_Blocks).

Definition _recv_NotInChain (data : list item) : M St unit := ret tt.

(** *** Dispatch *)

(** [getattr(self, func_name)(data)]; [self_recv_packet] is the bound
    method [self._recv_packet]. *)
Definition call_method (self_recv_packet : item -> M St unit)
    (m : recv_method) (data : list item) : M St unit :=
  match m with
  | m_packet => self_recv_packet (Lst data)
  | m_Hello => _recv_Hello data
  | m_Ping => _recv_Ping data
  | m_Pong => _recv_Pong data
  | m_Disconnect => _recv_Disconnect data
  | m_GetPeers => _recv_GetPeers data
  | m_Peers => _recv_Peers data
  | m_GetTransactions => _recv_GetTransactions data
  | m_Transactions => _recv_Transactions data
  | m_Blocks => _recv_Blocks data
  | m_GetChain => _recv_GetChain data
  | m_NotInChain => _recv_NotInChain data
  end.

(** The fuel bounds the re-entrance through the attribute [_recv_packet]
    itself (command name [packet]); every other path uses one unit. *)
Fixpoint _recv_packet (fuel : nat) (packet : item) : M St unit :=
  match fuel with
  | O => fun _ => OutOfFuel
  | S fuel' =>
      match load_cmd packet with
      | inl e =>
          logger_warn (exn_msg e) ;;
          send_Disconnect (Some "Bad protocol")
      | inr (cmd, data) =>
          t <- time_time ;;
          modify (set_last_valid_packet_received t) ;;
          let func_name := "_recv_" +:+ cmd in
          match recv_methods !! func_name with
          | None =>
              logger_warn ("unknown cmd " +:+ squote +:+ func_name
                             +:+ squote)
          | Some m => call_method (_recv_packet fuel') m data
          end
      end
  end.

(** *** The receive step *)

(** The [while True:] loop of [_process_recv]. *)
Fixpoint recv_loop (fuel : nat) (packet : string) : M St string :=
  match fuel with
  | O => fun _ => OutOfFuel
  | S fuel' =>
      chunk <- try_IOError
                 (c <- connection ;; socket_recv c 2048)
                 (fun _ => ret "") ;;
      if str_empty chunk then ret packet
      else recv_loop fuel' (packet +:+ chunk)
  end.

Definition _process_recv (fuel : nat) : M St nat :=
  packet <- recv_loop fuel "" ;;
  (if str_empty packet then ret tt else _recv_packet fuel (Str packet)) ;;
  ret (String.length packet).

(** *** One loop iteration *)

Definition loop_body (fuel : nat) : M St unit :=
  send_size <- _process_send fuel ;;
  recv_size <- _process_recv fuel ;;
  if Nat.eqb send_size 0 && Nat.eqb recv_size 0
  then time_sleep 100
  else ret tt.

End Peer.

(** ** A scripted socket and a table codec, for running the model *)

(** A socket whose writes and reads follow a script. A write takes at least
    one byte and at most the whole buffer; with no script left it takes the
    whole buffer. A read with no script left would block, which a
    non-blocking socket reports as an error. Once closed, every call fails. *)
Record fake_socket : Type := FakeSocket {
  fs_room : list (option nat);
  fs_inbox : list (io string);
  fs_closed : bool
}.

Definition ebadf : string := "Bad file descriptor".

Definition fake_send (c : fake_socket) (buf : string) : fake_socket * io nat :=
  if fs_closed c then (c, IOFail ebadf)
  else
    match fs_room c with
    | [] => (c, IOOk (String.length buf))
    | None :: rest =>
        (FakeSocket rest (fs_inbox c) false, IOFail "Broken pipe")
    | Some room :: rest =>
        (FakeSocket rest (fs_inbox c) false,
         IOOk (Nat.min (Nat.max 1 room) (String.length buf)))
    end.

Definition fake_recv (c : fake_socket) (bufsize : nat)
    : fake_socket * io string :=
  if fs_closed c then (c, IOFail ebadf)
  else
    match fs_inbox c with
    | [] => (c, IOFail "Resource temporarily unavailable")
    | r :: rest => (FakeSocket (fs_room c) rest false, r)
    end.

Definition fake_shutdown (c : fake_socket) : fake_socket * io unit :=
  if fs_closed c then (c, IOFail ebadf) else (c, IOOk tt).

Definition fake_close (c : fake_socket) : fake_socket :=
  FakeSocket (fs_room c) (fs_inbox c) true.

Definition fake_connection : Connection fake_socket :=
  {| conn_send := fake_send;
     conn_recv := fake_recv;
     conn_shutdown := fake_shutdown;
     conn_close := fake_close |}.

(** A codec over a toy wire format: a packet is its command name, with an
    empty payload; the empty packet and a packet starting with [!] do not
    decode. *)
Definition fake_load_cmd (packet : item) : exn + (string * list item) :=
  match packet with
  | Str EmptyString => inl (Exn Exception "empty packet")
  | Str (String c rest) =>
      if Ascii.eqb c "!" then inl (Exn Exception "check sum failed")
      else inr (String c rest, [])
  | Lst _ => inl (Exn TypeError "packet is not a byte string")
  end.

Definition fake_packeter : Packeter :=
  {| PROTOCOL_VERSION := 8;
     NETWORK_ID := 0;
     load_cmd := fake_load_cmd;
     dump_Hello := "Hello";
     dump_Ping := "Ping";
     dump_Pong := "Pong";
     dump_Disconnect := "Disconnect";
     dump_GetPeers := "GetPeers";
     dump_Peers := fun peers => match peers with [] => "" | _ => "Peers" end;
     dump_GetTransactions := "GetTransactions";
     dump_Transactions := fun _ => "Transactions";
     dump_Blocks := fun _ => "Blocks";
     dump_GetChain := fun _ => "GetChain";
     dump_NotInChain := "NotInChain";
     disconnect_reasons_map_by_id :=
       list_to_map [(0, "Disconnect requested"); (2, "Bad protocol");
                    (6, "Wrong genesis block");
                    (7, "Incompatible network protocols")] |}.

(** [chr(n)] as a one-byte string. *)
Definition chr (n : nat) : string := String (ascii_of_nat n) EmptyString.

(** Hello payloads for the table codec: version, network id, client id,
    listen port, capabilities and, when given, the node id. *)
Definition hello_fields (version : nat) (network : string)
    (nid : option string) : list item :=
  [Str (chr version); Str network; Str "pyethereum"; Str "v_"; Str (chr 7)]
    ++ match nid with Some i => [Str i] | None => [] end.

(** A freshly constructed peer on a scripted socket, at clock reading 0. *)
Definition fresh (room : list (option nat)) (inbox : list (io string))
    : peer fake_socket :=
  mkPeer false (FakeSocket room inbox false) "10.0.0.7" (Some 30303)
         (Str "") [] false false 0 0 0 0 [].

(** ** What a spec-side reading of the payloads looks like *)

(** One byte of a peer address as the codec delivers it: a one-character
    string, or an empty item for a zero byte. *)
Definition ip_byte_ok (b : item) : bool :=
  match b with
  | Str EmptyString => true
  | Str (String _ EmptyString) => true
  | Lst [] => true
  | _ => false
  end.

(** The value of an address byte, an absent or empty byte counting as zero. *)
Definition byte_value (b : item) : N :=
  match b with
  | Str (String c EmptyString) => N_of_ascii c
  | _ => 0%N
  end.

(** The dotted-quad rendering of the address bytes. *)
Definition dotted_quad (bs : list item) : string :=
  join "." (map (fun b => str_of_N (byte_value b)) bs).

(** Field [i] of a payload read as an integer, when it is there and
    decodable. *)
Definition field (data : list item) (i : nat) : option Z :=
  match data !! i with
  | Some d => match idec d with inr v => Some v | inl _ => None end
  | None => None
  end.

(** A Peers entry [(ip, port, node-id)]. *)
Definition peer_entry : Type := list item * string * item.

Definition entry_item (e : peer_entry) : item :=
  let '(bs, p, pid) := e in Lst [Lst bs; Str p; pid].

Definition entry_ok (e : peer_entry) : bool :=
  let '(bs, _, _) := e in forallb ip_byte_ok bs.

(** A Peers payload item that is such an entry. *)
Definition peers_item_ok (x : item) : bool :=
  match x with
  | Lst [Lst bs; Str _; _] => forallb ip_byte_ok bs
  | _ => false
  end.

(** The notification one entry is republished as. *)
Definition entry_notification (e : peer_entry) : event :=
  let '(bs, p, pid) := e in
  Sig_new_peer_received (dotted_quad bs) (big_endian_to_int p) pid.

(** The effects of one entry: the log record and the notification. *)
Definition entry_events (e : peer_entry) : list event :=
  let '(bs, p, pid) := e in
  [Log_debug ("received peer address: " +:+ dotted_quad bs +:+ ":"
                +:+ str_of_Z (big_endian_to_int p));
   entry_notification e].

Definition is_new_peer (e : event) : bool :=
  match e with Sig_new_peer_received _ _ _ => true | _ => false end.

Definition is_packet_sent (e : event) : bool :=
  match e with Sig_packet_sent _ => true | _ => false end.

(** ** States and traces the methods are compared with *)

Section Readings.
Context {Sock : Type} {conn : Connection Sock} {pk : Packeter}.

Abbreviation St := (peer Sock).

(** The state [stop()] leaves behind. *)
Definition after_stop (s : St) : St :=
  let s1 := set_stopped true s in
  let r := conn_shutdown (_connection s1) in
  let s2 := emit Sock_shutdown (set_connection r.1 s1) in
  let s3 :=
    match r.2 with
    | IOFail msg =>
        emit (Log_debug ("shutting down failed " +:+ repr s2 +:+ " "
                           +:+ dquote +:+ msg +:+ dquote)) s2
    | IOOk _ => s2
    end in
  emit Sock_close (set_connection (conn_close (_connection s3)) s3).

(** The state the [except IOError] branch of [_process_send] leaves
    behind, entered in [s] with error text [msg]. *)
Definition send_failed (msg : string) (s : St) : St :=
  after_stop
    (emit (Log_debug (repr s +:+ ": send packet failed, " +:+ msg)) s).

(** The state after a write of [packet] was started on [s] and the socket
    moved to [c']. *)
Definition written (packet : string) (c' : Sock) (s : St) : St :=
  emit (Sock_send packet)
    (set_connection c' (emit (Sig_packet_sending packet) s)).

(** The payloads a handler takes without raising: a Hello has a decodable
    version and, when the version matches, a decodable network id; a
    Disconnect is empty or starts with a reason code of the table; a Peers
    payload is a list of entries. The re-entrant attribute [_recv_packet] is
    left out. *)
Definition payload_ok (m : recv_method) (data : list item) : bool :=
  match m with
  | m_packet => false
  | m_Hello =>
      match field data 0 with
      | None => false
      | Some v =>
          if v =? PROTOCOL_VERSION
          then match field data 1 with Some _ => true | None => false end
          else true
      end
  | m_Disconnect =>
      match data with
      | [] => true
      | _ =>
          match field data 0 with
          | None => false
          | Some k =>
              match disconnect_reasons_map_by_id !! k with
              | Some _ => true
              | None => false
              end
          end
      end
  | m_Peers => forallb peers_item_ok data
  | _ => true
  end.

(** The state [send_Disconnect] leaves behind. *)
Definition disconnected (s : St) : St :=
  emit Sig_disconnect_requested
    (emit (Time_sleep 2000)
       (set_now (now s + 2000)
          (emit (Queue_put dump_Disconnect)
             (set_response_queue (response_queue s ++ [dump_Disconnect])
                s)))).

(** A Hello that [_recv_Hello] turns down: the version differs, or the
    version matches and the network id differs. *)
Definition hello_rejected (data : list item) : Prop :=
  (exists v, field data 0 = Some v /\ v <> PROTOCOL_VERSION)
  \/ (field data 0 = Some PROTOCOL_VERSION
      /\ exists n, field data 1 = Some n /\ n <> NETWORK_ID).

(** A write to a non-empty buffer that succeeds takes at least one
    byte. *)
Definition writes_progress : Prop :=
  forall (c c' : Sock) (buf : string) (n : nat),
    buf <> "" -> conn_send c buf = (c', IOOk n) -> (1 <= n)%nat.

(** The effects of one [stop()] on the socket [c] of the peer that prints as
    [who]: shutdown, the log record when shutdown failed, with the error text
    the socket gave, then close. *)
Definition stop_events (who : string) (c : Sock) : list event :=
  Sock_shutdown
    :: match (conn_shutdown c).2 with
       | IOFail msg =>
           [Log_debug ("shutting down failed " +:+ who +:+ " " +:+ dquote
                         +:+ msg +:+ dquote)]
       | IOOk _ => []
       end
    ++ [Sock_close].

(** The socket [stop()] leaves behind. *)
Definition stop_socket (c : Sock) : Sock := conn_close (conn_shutdown c).1.

(** The effects of the send loop of the peer that prints as [who], started
    on [packet] with the stopped flag [st] and the socket [c]; what is left
    unsent when the loop is over; and the socket it leaves behind. Every
    write is announced by [packet_sending]; when the socket takes [n] bytes
    the loop notifies [packet_sent] with [packet[n:]] and goes on with that
    remainder on the socket as the write left it; when the write fails, or
    the accessor refuses because the peer is stopped, the loop logs the
    error text, runs one [stop()] and ends with the packet as it was. *)
Inductive send_run (who : string)
  : bool -> Sock -> string -> list event -> string -> Sock -> Prop :=
| send_run_done (st : bool) (c : Sock) :
    send_run who st c "" [] "" c
| send_run_write (c c1 c' : Sock) (packet : string) (n : nat)
      (evs : list event) (rest : string) :
    packet <> "" ->
    conn_send c packet = (c1, IOOk n) ->
    send_run who false c1 (str_drop n packet) evs rest c' ->
    send_run who false c packet
      (Sig_packet_sending packet :: Sock_send packet
         :: Sig_packet_sent (str_drop n packet) :: evs) rest c'
| send_run_write_failed (c c1 : Sock) (packet msg : string) :
    packet <> "" ->
    conn_send c packet = (c1, IOFail msg) ->
    send_run who false c packet
      (Sig_packet_sending packet :: Sock_send packet
         :: Log_debug (who +:+ ": send packet failed, " +:+ msg)
         :: stop_events who c1)
      packet (stop_socket c1)
| send_run_stopped (c : Sock) (packet : string) :
    packet <> "" ->
    send_run who true c packet
      (Sig_packet_sending packet
         :: Log_debug (who +:+ ": send packet failed, Connection was stopped")
         :: stop_events who c)
      packet (stop_socket c).

(** The socket [c], offered [packet] and then each remainder in turn, is
    handed the buffers [offered], takes the bytes [taken] in all and leaves
    [rest] untaken: a write that takes [n] bytes takes [packet[:n]] and is
    followed by a write of [packet[n:]]; a write that fails takes nothing
    and is the last. *)
Inductive drained
  : Sock -> string -> list string -> string -> string -> Prop :=
| drained_done (c : Sock) :
    drained c "" [] "" ""
| drained_write (c c1 : Sock) (packet : string) (n : nat)
      (offered : list string) (taken rest : string) :
    packet <> "" ->
    conn_send c packet = (c1, IOOk n) ->
    drained c1 (str_drop n packet) offered taken rest ->
    drained c packet (packet :: offered) (str_take n packet +:+ taken) rest
| drained_failed (c c1 : Sock) (packet msg : string) :
    packet <> "" ->
    conn_send c packet = (c1, IOFail msg) ->
    drained c packet [packet] "" packet.

End Readings.

(** The effects of one [stop()] of the peer that prints as [who]. *)
Inductive stop_run (who : string) : list event -> Prop :=
| stop_run_clean :
    stop_run who [Sock_shutdown; Sock_close]
| stop_run_logged (msg : string) :
    stop_run who
      [Sock_shutdown;
       Log_debug ("shutting down failed " +:+ who +:+ " " +:+ dquote
                    +:+ msg +:+ dquote);
       Sock_close].

Definition node_A : string := "node-A".
Definition node_B : string := "node-B".

(** A running peer with two packets queued, on a socket that takes one byte
    and then breaks. *)
Definition breaking_after_one_byte : peer fake_socket :=
  set_response_queue ["ab"; "cd"] (fresh [Some 1%nat; None] []).

(** A running peer with one packet queued, on a socket that takes two bytes,
    then one, then whole buffers. *)
Definition taking_two_then_one : peer fake_socket :=
  set_response_queue ["abc"] (fresh [Some 2%nat; Some 1%nat] []).

(** A peer that was stopped, with one packet still queued. *)
Definition stopped_with_ping : peer fake_socket :=
  set_response_queue ["Ping"]
    (after_stop (conn := fake_connection) (fresh [] [])).

(** ** Relations and runs the further properties are stated with *)

(** [P] holds of the state a run ends in, returning or raising. *)
Definition after {St A} (r : result St A) (P : St -> Prop) : Prop :=
  match r with
  | Ret _ s' => P s'
  | Raise _ s' => P s'
  | OutOfFuel => True
  end.

(** The run ends, returning or raising, in a state of [P]. *)
Definition ends {St A} (r : result St A) (P : St -> Prop) : Prop :=
  match r with
  | Ret _ s' => P s'
  | Raise _ s' => P s'
  | OutOfFuel => False
  end.

(** The buffers handed to [sock.send], in order. *)
Definition written_bufs (evs : list event) : list string :=
  omap (fun e => match e with Sock_send buf => Some buf | _ => None end) evs.

(** The chunks of a read, one after the other. *)
Definition str_concat (chunks : list string) : string :=
  foldr String.append "" chunks.

Definition is_request (e : event) : bool :=
  match e with Sig_request_data_async _ _ _ => true | _ => false end.

Section Frames.
Context {Sock : Type} {conn : Connection Sock} {pk : Packeter}.

Abbreviation St := (peer Sock).

(** What dispatching a packet leaves alone: the lifecycle flag, the socket,
    the peer's address; the trace grows by effects that are not socket calls,
    the queue grows at its end, the handshake flags are not reset and the
    clock does not go back. *)
Record dispatch_frame (s s' : St) : Prop := DispatchFrame {
  df_stopped : _stopped s' = _stopped s;
  df_connection : _connection s' = _connection s;
  df_ip : ip s' = ip s;
  df_port : port s' = port s;
  df_trace : exists evs, trace s' = trace s ++ evs
                         /\ Forall (fun e => is_sock e = false) evs;
  df_queue : exists q, response_queue s' = response_queue s ++ q;
  df_received : hello_received s = true -> hello_received s' = true;
  df_sent : hello_sent s = true -> hello_sent s' = true;
  df_now : now s <= now s'
}.

(** What a handler leaves alone on top of that: the time of the last valid
    packet. *)
Definition handler_frame (s s' : St) : Prop :=
  dispatch_frame s s'
  /\ last_valid_packet_received s' = last_valid_packet_received s.

(** [m] always ends, and keeps the relation [R] between the state it starts
    in and the state it ends in. *)
Definition keeps {A} (R : St -> St -> Prop) (m : M St A) : Prop :=
  forall s, ends (m s) (R s).

(** The packet does not decode to the command name [packet], the one name
    that leads back into the dispatcher. *)
Definition not_reentrant (packet : item) : Prop :=
  forall (cmd : string) (data : list item),
    load_cmd packet = inr (cmd, data) -> cmd <> "packet".

(** What dispatching [packet] from [s] ends in: the dispatch frame, and the
    time of the last valid packet set to the clock reading at entry when the
    packet decodes and left as it was when it does not. *)
Definition dispatch_post (packet : item) (s s' : St) : Prop :=
  dispatch_frame s s'
  /\ last_valid_packet_received s'
     = match load_cmd packet with
       | inl _ => last_valid_packet_received s
       | inr _ => now s
       end.

(** The socket hands out [chunks] and then has nothing more: the last read
    fails or returns the empty string. *)
Inductive reads : Sock -> list string -> Sock -> Prop :=
| reads_end (c c' : Sock) (r : io string) :
    conn_recv c 2048 = (c', r) ->
    (r = IOOk "" \/ exists msg, r = IOFail msg) ->
    reads c [] c'
| reads_chunk (c c1 c' : Sock) (chunk : string) (chunks : list string) :
    conn_recv c 2048 = (c1, IOOk chunk) ->
    chunk <> "" ->
    reads c1 chunks c' ->
    reads c (chunk :: chunks) c'.

(** [k] send steps in a row, as [k] loop iterations perform them. *)
Fixpoint send_steps (fuel k : nat) : M St unit :=
  match k with
  | O => ret tt
  | S k' => _process_send fuel ;; send_steps fuel k'
  end.

(** Sockets in a state of [good] take every buffer whole and stay in
    [good]. *)
Definition takes_all (good : Sock -> Prop) : Prop :=
  forall (c : Sock) (buf : string),
    good c ->
    exists c', conn_send c buf = (c', IOOk (String.length buf)) /\ good c'.

End Frames.

(** A scripted socket that is open and has no write script left. *)
Definition fake_open (c : fake_socket) : Prop :=
  fs_closed c = false /\ fs_room c = [].

(** * Properties *)

Section Facts.
Context {Sock : Type} {conn : Connection Sock} {pk : Packeter}.

Abbreviation St := (peer Sock).

(** ** Disconnecting *)

Lemma send_Disconnect_eq (reason : option string) (s : St) :
  send_Disconnect reason s = Ret tt (disconnected s).
Proof. reflexivity. Qed.

Lemma disconnected_trace (s : St) :
  trace (disconnected s)
  = trace s ++ [Queue_put dump_Disconnect; Time_sleep 2000;
                Sig_disconnect_requested].
Proof. cbn. by rewrite <- !app_assoc. Qed.

(** C7: [send_Disconnect] puts the Disconnect packet on the outbound queue,
    then sleeps two seconds, then sends [disconnect_requested]; the three
    effects appear in the trace in that order and nothing else happens, so
    at the moment of the notification the packet is already queued. *)
Theorem send_Disconnect_enqueue_sleep_notify (reason : option string)
    (s : St) :
  exists s1 s2 s3 : St,
    send_packet dump_Disconnect s = Ret tt s1
    /\ response_queue s1 = response_queue s ++ [dump_Disconnect]
    /\ time_sleep 2000 s1 = Ret tt s2
    /\ now s2 = now s + 2000
    /\ response_queue s2 = response_queue s1
    /\ signal Sig_disconnect_requested s2 = Ret tt s3
    /\ send_Disconnect reason s = Ret tt s3
    /\ trace s3 = trace s ++ [Queue_put dump_Disconnect; Time_sleep 2000;
                              Sig_disconnect_requested].
Proof.
  eexists _, _, _.
  repeat split; try reflexivity.
  cbn. by rewrite <- !app_assoc.
Qed.

(** ** Stopping *)

Lemma stop_eq (s : St) : stop s = Ret tt (after_stop s).
Proof.
  unfold stop, after_stop, bind, try_IOError, socket_shutdown,
    StoppableLoopThread_stop, modify. cbn.
  destruct (conn_shutdown (_connection s)) as [c' [msg|[]]]; reflexivity.
Qed.

Lemma after_stop_stopped (s : St) : _stopped (after_stop s) = true.
Proof.
  unfold after_stop. cbn.
  by destruct (conn_shutdown (_connection s)) as [c' [msg|[]]].
Qed.

Lemma after_stop_queue (s : St) :
  response_queue (after_stop s) = response_queue s.
Proof.
  unfold after_stop. cbn.
  by destruct (conn_shutdown (_connection s)) as [c' [msg|[]]].
Qed.

Lemma after_stop_repr (s : St) : repr (after_stop s) = repr s.
Proof.
  unfold after_stop, repr. cbn.
  by destruct (conn_shutdown (_connection s)) as [c' [msg|[]]].
Qed.

Lemma after_stop_trace (s : St) :
  exists evs, trace (after_stop s) = trace s ++ evs
              /\ stop_run (repr s) evs.
Proof.
  unfold after_stop. cbn.
  destruct (conn_shutdown (_connection s)) as [c' [msg|[]]]; cbn.
  - eexists. rewrite <- !app_assoc. split; [reflexivity|].
    apply stop_run_logged.
  - eexists. rewrite <- !app_assoc. split; [reflexivity|].
    apply stop_run_clean.
Qed.

Lemma stop_run_no_io (who : string) (evs : list event) :
  stop_run who evs -> Forall (fun e => is_sock_io e = false) evs.
Proof. destruct 1; repeat constructor. Qed.

(** ** The send loop, one iteration at a time *)

Lemma send_loop_empty (fuel : nat) (s : St) :
  send_loop fuel "" s = Ret "" s.
Proof. by destruct fuel. Qed.

Lemma send_loop_stopped (fuel : nat) (packet : string) (s : St) :
  packet <> "" ->
  _stopped s = true ->
  send_loop (S fuel) packet s
  = Ret packet
      (send_failed "Connection was stopped"
         (emit (Sig_packet_sending packet) s)).
Proof.
  intros Hne Hst. destruct packet as [|a packet]; [done|].
  cbn [send_loop str_empty].
  unfold bind, signal, modify, try_IOError, connection, stopped.
  cbn -[stop]. rewrite Hst. cbn -[stop]. by rewrite stop_eq.
Qed.

Lemma send_loop_write_failed (fuel : nat) (packet : string) (s : St)
    (c' : Sock) (msg : string) :
  packet <> "" ->
  _stopped s = false ->
  conn_send (_connection s) packet = (c', IOFail msg) ->
  send_loop (S fuel) packet s
  = Ret packet (send_failed msg (written packet c' s)).
Proof.
  intros Hne Hst Hw. destruct packet as [|a packet]; [done|].
  cbn [send_loop str_empty].
  unfold bind, signal, modify, try_IOError, connection, stopped, get,
    socket_send. cbn -[stop].
  rewrite Hst. cbn -[stop]. rewrite Hw. cbn -[stop]. by rewrite stop_eq.
Qed.

Lemma send_loop_write_ok (fuel : nat) (packet : string) (s : St)
    (c' : Sock) (n : nat) :
  packet <> "" ->
  _stopped s = false ->
  conn_send (_connection s) packet = (c', IOOk n) ->
  send_loop (S fuel) packet s
  = send_loop fuel (str_drop n packet)
      (emit (Sig_packet_sent (str_drop n packet)) (written packet c' s)).
Proof.
  intros Hne Hst Hw. destruct packet as [|a packet]; [done|].
  cbn [send_loop str_empty].
  unfold bind, signal, modify, try_IOError, connection, stopped, get,
    socket_send. cbn -[send_loop].
  rewrite Hst. cbn -[send_loop]. rewrite Hw. reflexivity.
Qed.

Lemma str_drop_length (n : nat) (packet : string) :
  String.length (str_drop n packet) = (String.length packet - n)%nat.
Proof.
  revert packet. induction n as [|n IH]; intros [|a packet]; cbn; auto.
Qed.

Lemma send_failed_trace (msg : string) (s : St) :
  exists evs,
    trace (send_failed msg s)
    = trace s ++ Log_debug (repr s +:+ ": send packet failed, " +:+ msg)
                   :: evs
    /\ stop_run (repr s) evs.
Proof.
  unfold send_failed.
  destruct (after_stop_trace
              (emit (Log_debug (repr s +:+ ": send packet failed, " +:+ msg))
                 s)) as (evs & Ht & Hrun).
  exists evs. split; [|exact Hrun].
  rewrite Ht. cbn. by rewrite <- app_assoc.
Qed.

Lemma after_stop_exact (s : St) :
  trace (after_stop s) = trace s ++ stop_events (repr s) (_connection s)
  /\ _connection (after_stop s) = stop_socket (_connection s).
Proof.
  unfold after_stop, stop_events, stop_socket. cbn.
  destruct (conn_shutdown (_connection s)) as [c' [msg|[]]]; cbn;
    by rewrite <- !app_assoc.
Qed.

Lemma send_failed_exact (msg : string) (s : St) :
  trace (send_failed msg s)
  = trace s ++ Log_debug (repr s +:+ ": send packet failed, " +:+ msg)
                 :: stop_events (repr s) (_connection s)
  /\ _connection (send_failed msg s) = stop_socket (_connection s).
Proof.
  unfold send_failed.
  destruct (after_stop_exact
              (emit (Log_debug (repr s +:+ ": send packet failed, " +:+ msg))
                 s)) as [Ht Hc].
  split; [|exact Hc]. rewrite Ht. cbn. by rewrite <- app_assoc.
Qed.

(** Whenever the loop returns, its effects, its result and the socket it
    leaves follow [send_run]. *)
Lemma send_loop_run (fuel : nat) :
  forall (packet : string) (s : St) (rest : string) (s' : St),
    send_loop fuel packet s = Ret rest s' ->
    exists evs : list event,
      trace s' = trace s ++ evs
      /\ send_run (repr s) (_stopped s) (_connection s) packet evs rest
           (_connection s')
      /\ response_queue s' = response_queue s
      /\ (rest = "" -> _stopped s' = _stopped s)
      /\ (rest <> "" -> _stopped s' = true).
Proof.
  induction fuel as [|fuel IH]; intros packet s rest s' Hrun.
  - destruct packet; [|done]. injection Hrun as <- <-.
    exists []. rewrite app_nil_r.
    repeat split; auto using send_run_done; done.
  - destruct (decide (packet = "")) as [->|Hne].
    { injection Hrun as <- <-. exists []. rewrite app_nil_r.
      repeat split; auto using send_run_done; done. }
    destruct (_stopped s) eqn:Hst.
    { rewrite (send_loop_stopped _ _ _ Hne Hst) in Hrun.
      injection Hrun as <- <-.
      destruct (send_failed_exact "Connection was stopped"
                  (emit (Sig_packet_sending packet) s)) as [Ht Hc].
      eexists. split; [rewrite Ht; cbn; by rewrite <- app_assoc|].
      split; [rewrite Hc; by apply send_run_stopped|].
      unfold send_failed. rewrite after_stop_queue, after_stop_stopped.
      repeat split; auto; done. }
    destruct (conn_send (_connection s) packet) as [c' [msg|n]] eqn:Hw.
    { rewrite (send_loop_write_failed _ _ _ _ _ Hne Hst Hw) in Hrun.
      injection Hrun as <- <-.
      destruct (send_failed_exact msg (written packet c' s)) as [Ht Hc].
      eexists. split; [rewrite Ht; cbn; by rewrite <- !app_assoc|].
      split; [rewrite Hc; by eapply send_run_write_failed|].
      unfold send_failed. rewrite after_stop_queue, after_stop_stopped.
      repeat split; auto; done. }
    rewrite (send_loop_write_ok _ _ _ _ _ Hne Hst Hw) in Hrun.
    destruct (IH _ _ _ _ Hrun) as (evs & Ht & Hevs & Hq & Hok & Hko).
    exists (Sig_packet_sending packet :: Sock_send packet
              :: Sig_packet_sent (str_drop n packet) :: evs).
    split; [rewrite Ht; cbn; by rewrite <- !app_assoc|].
    cbn in Hevs, Hq, Hok, Hko. rewrite Hst in Hevs, Hok.
    split; [by eapply send_run_write|]. auto.
Qed.

(** The loop returns whenever the socket makes progress. *)
Lemma send_loop_returns (fuel : nat) :
  writes_progress ->
  forall (packet : string) (s : St),
    (String.length packet <= fuel)%nat ->
    exists (rest : string) (s' : St), send_loop fuel packet s = Ret rest s'.
Proof.
  intros Hprog. induction fuel as [|fuel IH]; intros packet s Hlen.
  - destruct packet; [|cbn in Hlen; lia]. by exists "", s.
  - destruct (decide (packet = "")) as [->|Hne]; [by exists "", s|].
    destruct (_stopped s) eqn:Hst.
    { rewrite (send_loop_stopped _ _ _ Hne Hst). by eexists _, _. }
    destruct (conn_send (_connection s) packet) as [c' [msg|n]] eqn:Hw.
    { rewrite (send_loop_write_failed _ _ _ _ _ Hne Hst Hw).
      by eexists _, _. }
    rewrite (send_loop_write_ok _ _ _ _ _ Hne Hst Hw).
    pose proof (Hprog _ _ _ _ Hne Hw) as Hn.
    apply IH. rewrite str_drop_length.
    destruct packet; [done|]. cbn in *. lia.
Qed.

(** The send step never raises. *)
Lemma send_loop_no_raise (fuel : nat) (packet : string) (s : St)
    (e : exn) (s' : St) :
  send_loop fuel packet s <> Raise e s'.
Proof.
  revert packet s. induction fuel as [|fuel IH]; intros packet s.
  - by destruct packet.
  - destruct (decide (packet = "")) as [->|Hne]; [done|].
    destruct (_stopped s) eqn:Hst.
    { by rewrite (send_loop_stopped _ _ _ Hne Hst). }
    destruct (conn_send (_connection s) packet) as [c' [msg|n]] eqn:Hw.
    + by rewrite (send_loop_write_failed _ _ _ _ _ Hne Hst Hw).
    + rewrite (send_loop_write_ok _ _ _ _ _ Hne Hst Hw). apply IH.
Qed.

Lemma process_send_no_raise (fuel : nat) (s : St) (e : exn) (s' : St) :
  _process_send fuel s <> Raise e s'.
Proof.
  unfold _process_send, bind, queue_get_nowait.
  destruct (response_queue s) as [|p q]; cbn -[send_loop].
  - by rewrite send_loop_empty.
  - destruct (send_loop fuel p (set_response_queue q s))
      as [rest s1|e1 s1|] eqn:Hrun; [|by apply send_loop_no_raise in Hrun|done].
    by destruct (str_empty rest).
Qed.

(** ** The receive loop, one iteration at a time *)

Lemma recv_loop_stopped (fuel : nat) (packet : string) (s : St) :
  _stopped s = true -> recv_loop (S fuel) packet s = Ret packet s.
Proof.
  intros Hst. cbn [recv_loop].
  unfold bind, try_IOError, connection, stopped. cbn.
  by rewrite Hst.
Qed.

Lemma recv_loop_read_failed (fuel : nat) (packet : string) (s : St)
    (c' : Sock) (msg : string) :
  _stopped s = false ->
  conn_recv (_connection s) 2048 = (c', IOFail msg) ->
  recv_loop (S fuel) packet s
  = Ret packet (emit (Sock_recv 2048) (set_connection c' s)).
Proof.
  intros Hst Hr. cbn [recv_loop].
  unfold bind, try_IOError, connection, stopped, get, socket_recv.
  cbn. rewrite Hst. cbn. by rewrite Hr.
Qed.

Lemma recv_loop_read_chunk (fuel : nat) (packet : string) (s : St)
    (c' : Sock) (chunk : string) :
  _stopped s = false ->
  conn_recv (_connection s) 2048 = (c', IOOk chunk) ->
  recv_loop (S fuel) packet s
  = if str_empty chunk
    then Ret packet (emit (Sock_recv 2048) (set_connection c' s))
    else recv_loop fuel (packet +:+ chunk)
           (emit (Sock_recv 2048) (set_connection c' s)).
Proof.
  intros Hst Hr. cbn [recv_loop].
  unfold bind, try_IOError, connection, stopped, get, socket_recv.
  cbn -[recv_loop]. rewrite Hst. cbn -[recv_loop]. rewrite Hr.
  by destruct chunk.
Qed.

Lemma process_recv_stopped (fuel : nat) (s : St) :
  _stopped s = true -> _process_recv (S fuel) s = Ret 0%nat s.
Proof.
  intros Hst. unfold _process_recv, bind.
  by rewrite (recv_loop_stopped _ _ _ Hst).
Qed.

Lemma process_send_stopped (fuel : nat) (s : St) :
  _stopped s = true ->
  (default "" (head (response_queue s)) = "" ->
     _process_send (S fuel) s
     = Ret 0%nat (set_response_queue (tail (response_queue s)) s))
  /\ (default "" (head (response_queue s)) <> "" ->
      exists (s' : St) (evs : list event),
        _process_send (S fuel) s
        = Ret (String.length (default "" (head (response_queue s)))) s'
        /\ _stopped s' = true
        /\ response_queue s' = tail (response_queue s)
        /\ trace s'
           = trace s
               ++ Sig_packet_sending (default "" (head (response_queue s)))
               :: Log_debug (repr s +:+ ": send packet failed, "
                               +:+ "Connection was stopped")
               :: evs
        /\ stop_run (repr s) evs).
Proof.
  intros Hst. unfold _process_send, bind, queue_get_nowait.
  destruct (response_queue s) as [|p q] eqn:Hq; cbn -[send_loop].
  - split; [intros _|done]. rewrite send_loop_empty. cbn.
    by destruct s; cbn in *; subst.
  - split.
    + intros ->. by rewrite send_loop_empty.
    + intros Hne.
      rewrite (send_loop_stopped fuel p (set_response_queue q s) Hne Hst).
      destruct (send_failed_trace "Connection was stopped"
                  (emit (Sig_packet_sending p) (set_response_queue q s)))
        as (evs & Ht & Hrun).
      destruct p as [|a p]; [done|]. cbn [str_empty].
      eexists _, evs. split; [reflexivity|].
      unfold send_failed in *.
      rewrite after_stop_stopped, after_stop_queue.
      split; [done|]. split; [done|].
      split; [rewrite Ht; cbn; by rewrite <- app_assoc|exact Hrun].
Qed.

(** ** The handshake *)

Lemma index_field {A} (data : list item) (i : nat) (v : Z)
    (k : Z -> M St A) (s : St) :
  field data i = Some v ->
  (d <- index data i ;; x <- lift (idec d) ;; k x) s = k v s.
Proof.
  unfold field, index, bind. intros Hf.
  destruct (data !! i) as [d|]; [|done]. cbn.
  destruct (idec d) as [e|x]; [done|]. cbn.
  by injection Hf as ->.
Qed.

Lemma lookup_5_of_6 (data : list item) :
  length data = 6%nat -> exists d5, data !! 5%nat = Some d5.
Proof.
  intros Hlen. destruct (data !! 5%nat) as [d5|] eqn:E; [by eexists|].
  apply lookup_ge_None in E. lia.
Qed.

(** The accepting path of [_recv_Hello], field by field. *)
Lemma recv_Hello_valid (data : list item) (s : St) :
  field data 0 = Some PROTOCOL_VERSION ->
  field data 1 = Some NETWORK_ID ->
  exists s' : St,
    _recv_Hello data s = Ret tt s'
    /\ hello_received s' = true
    /\ hello_sent s' = true
    /\ response_queue s'
       = response_queue s ++ (if hello_sent s then [] else [dump_Hello])
    /\ trace s'
       = trace s ++ (if hello_sent s then [] else [Queue_put dump_Hello])
    /\ node_id s'
       = (if Nat.eqb (length data) 6
          then default (node_id s) (data !! 5%nat) else node_id s)
    /\ _stopped s' = _stopped s.
Proof.
  intros H0 H1. unfold _recv_Hello.
  rewrite (index_field _ _ _ _ _ H0), Z.eqb_refl. cbn [negb].
  rewrite (index_field _ _ _ _ _ H1), Z.eqb_refl. cbn [negb].
  destruct (Nat.eqb (length data) 6) eqn:Hlen.
  - apply Nat.eqb_eq in Hlen.
    destruct (lookup_5_of_6 _ Hlen) as [d5 Hd5].
    unfold index. rewrite Hd5.
    destruct (hello_sent s) eqn:Hs; cbn; rewrite Hs; cbn;
      eexists; (split; [reflexivity|]); cbn; rewrite ?app_nil_r;
      repeat split; auto.
  - destruct (hello_sent s) eqn:Hs; cbn; rewrite Hs; cbn;
      eexists; (split; [reflexivity|]); cbn; rewrite ?app_nil_r;
      repeat split; auto.
Qed.

(** C5: a Hello whose version and network id both match sets
    [hello_received]; if [hello_sent] was false exactly one Hello packet is
    put on the queue and [hello_sent] becomes true; if it was already true
    nothing is queued. *)
Theorem recv_Hello_accept_replies_once (data : list item) (s : St) :
  field data 0 = Some PROTOCOL_VERSION ->
  field data 1 = Some NETWORK_ID ->
  exists s' : St,
    _recv_Hello data s = Ret tt s'
    /\ hello_received s' = true
    /\ hello_sent s' = true
    /\ (hello_sent s = false ->
          response_queue s' = response_queue s ++ [dump_Hello]
          /\ trace s' = trace s ++ [Queue_put dump_Hello])
    /\ (hello_sent s = true ->
          response_queue s' = response_queue s /\ trace s' = trace s).
Proof.
  intros H0 H1.
  destruct (recv_Hello_valid data s H0 H1)
    as (s' & Hrun & Hrecv & Hsent & Hq & Ht & _).
  exists s'. do 3 (split; [done|]).
  split; intros Hs; rewrite Hs in Hq, Ht; by rewrite ?app_nil_r in *.
Qed.

(** C3 (as amended): on an accepted Hello the node id becomes field 5 when
    the payload has exactly six fields, whatever it was before, and is left
    as it was for any other length. *)
Theorem recv_Hello_node_id_from_sixth_field (data : list item) (s : St) :
  field data 0 = Some PROTOCOL_VERSION ->
  field data 1 = Some NETWORK_ID ->
  exists s' : St,
    _recv_Hello data s = Ret tt s'
    /\ (length data = 6%nat -> data !! 5%nat = Some (node_id s'))
    /\ (length data <> 6%nat -> node_id s' = node_id s).
Proof.
  intros H0 H1.
  destruct (recv_Hello_valid data s H0 H1)
    as (s' & Hrun & _ & _ & _ & _ & Hid & _).
  exists s'. split; [done|]. split; intros Hlen.
  - rewrite Hlen in Hid. cbn in Hid.
    destruct (lookup_5_of_6 _ Hlen) as [d5 Hd5].
    rewrite Hd5 in Hid |- *. cbn in Hid. by rewrite Hid.
  - apply Nat.eqb_neq in Hlen. by rewrite Hlen in Hid.
Qed.

(** C1: a Hello with a wrong version or a wrong network id puts exactly one
    packet on the queue and leaves the handshake flags alone, but the packet
    is [dump_Disconnect()] built without the reason: the handler does what
    [send_Disconnect] does when given no reason at all, so neither
    'Incompatible network protocols' nor 'Wrong genesis block' reaches the
    wire. *)
Theorem recv_Hello_reject_reason_not_encoded (data : list item) (s : St) :
  hello_rejected data ->
  _recv_Hello data s = send_Disconnect None s
  /\ exists s' : St,
       _recv_Hello data s = Ret tt s'
       /\ response_queue s' = response_queue s ++ [dump_Disconnect]
       /\ trace s' = trace s ++ [Queue_put dump_Disconnect; Time_sleep 2000;
                                 Sig_disconnect_requested]
       /\ hello_received s' = hello_received s
       /\ hello_sent s' = hello_sent s
       /\ _stopped s' = _stopped s.
Proof.
  intros Hrej.
  assert (Hrun : _recv_Hello data s = Ret tt (disconnected s)).
  { unfold _recv_Hello.
    destruct Hrej as [(v & H0 & Hv)|(H0 & n & H1 & Hn)].
    - rewrite (index_field _ _ _ _ _ H0).
      apply Z.eqb_neq in Hv. by rewrite Hv.
    - rewrite (index_field _ _ _ _ _ H0), Z.eqb_refl. cbn [negb].
      rewrite (index_field _ _ _ _ _ H1).
      apply Z.eqb_neq in Hn. by rewrite Hn. }
  split; [by rewrite Hrun|].
  exists (disconnected s). split; [done|].
  split; [done|]. split; [apply disconnected_trace|done].
Qed.

(** ** The send and receive steps *)

(** C4 (as amended): one send step takes at most one packet off the queue
    and returns the number of bytes left unsent, 0 when the packet went out
    whole or the queue was empty. Its effects follow [send_run]: every write
    is announced by [packet_sending] first; every write the socket accepts,
    also a partial one, is followed by one [packet_sent] carrying the packet
    without the bytes the socket took, and the loop goes on with that
    remainder, so the [packet_sent] with the empty remainder is the last and
    comes after the full flush; a failed write is logged and followed by
    [stop()], the remainder abandoned and the peer stopped. The step ends
    whenever every successful write of a non-empty buffer takes at least one
    byte. *)
Theorem process_send_one_packet_per_step (fuel : nat) (s : St) :
  (forall (n : nat) (s' : St),
     _process_send fuel s = Ret n s' ->
     exists (rest : string) (evs : list event),
       n = String.length rest
       /\ response_queue s' = tail (response_queue s)
       /\ trace s' = trace s ++ evs
       /\ send_run (repr s) (_stopped s) (_connection s)
            (default "" (head (response_queue s))) evs rest (_connection s')
       /\ (rest = "" -> _stopped s' = _stopped s)
       /\ (rest <> "" -> _stopped s' = true))
  /\ (writes_progress ->
      (String.length (default "" (head (response_queue s))) <= fuel)%nat ->
      exists (n : nat) (s' : St), _process_send fuel s = Ret n s').
Proof.
  split.
  - intros n s'.
    unfold _process_send, bind, queue_get_nowait.
    destruct (response_queue s) as [|p q] eqn:Hq; cbn -[send_loop].
    + rewrite send_loop_empty. cbn. intros [= <- <-].
      exists "", []. rewrite app_nil_r, Hq.
      repeat split; auto using send_run_done; done.
    + destruct (send_loop fuel p (set_response_queue q s))
        as [rest s1|e s1|] eqn:Hrun; [|done|done].
      destruct (send_loop_run fuel _ _ _ _ Hrun)
        as (evs & Ht & Hevs & Hq' & Hok & Hko).
      intros Hret. exists rest, evs.
      assert (Hn : n = String.length rest /\ s' = s1).
      { destruct rest; by injection Hret as <- <-. }
      destruct Hn as [-> ->]. cbn in Ht, Hevs, Hq', Hok, Hko.
      repeat split; auto.
  - intros Hprog Hlen.
    unfold _process_send, bind, queue_get_nowait.
    destruct (response_queue s) as [|p q] eqn:Hq; cbn -[send_loop] in *.
    + rewrite send_loop_empty. cbn. by eexists _, _.
    + destruct (send_loop_returns fuel Hprog p (set_response_queue q s) Hlen)
        as (rest & s' & Hrun).
      rewrite Hrun. destruct (str_empty rest); by eexists _, _.
Qed.

(** C2 (as amended): a write failure in the send loop is logged, calls
    [stop()] at once and ends the step without another write; a read
    failure in the receive loop is taken as an empty chunk: it ends the
    loop without a log record and without [stop()], and is not retried. *)
Theorem write_failure_stops_read_failure_ends_loop (fuel : nat)
    (packet : string) (s : St) (c' : Sock) (msg : string) :
  _stopped s = false ->
  (packet <> "" ->
   conn_send (_connection s) packet = (c', IOFail msg) ->
   exists (s' : St) (evs : list event),
     send_loop (S fuel) packet s = Ret packet s'
     /\ _stopped s' = true
     /\ trace s'
        = trace s
            ++ [Sig_packet_sending packet; Sock_send packet;
                Log_debug (repr s +:+ ": send packet failed, " +:+ msg)]
            ++ evs
     /\ stop_run (repr s) evs
     /\ Forall (fun e => is_sock_io e = false) evs)
  /\ (conn_recv (_connection s) 2048 = (c', IOFail msg) ->
      recv_loop (S fuel) packet s
      = Ret packet (emit (Sock_recv 2048) (set_connection c' s))
      /\ _process_recv (S fuel) s
         = Ret 0%nat (emit (Sock_recv 2048) (set_connection c' s))).
Proof.
  intros Hst. split.
  - intros Hne Hw.
    rewrite (send_loop_write_failed _ _ _ _ _ Hne Hst Hw).
    destruct (send_failed_trace msg (written packet c' s))
      as (evs & Ht & Hrun).
    eexists _, evs. split; [reflexivity|].
    unfold send_failed in *. rewrite after_stop_stopped.
    split; [done|].
    split; [rewrite Ht; cbn; by rewrite <- !app_assoc|].
    split; [exact Hrun|by eapply stop_run_no_io].
  - intros Hr. split.
    + exact (recv_loop_read_failed _ _ _ _ _ Hst Hr).
    + unfold _process_recv, bind.
      by rewrite (recv_loop_read_failed _ _ _ _ _ Hst Hr).
Qed.

(** C10 (as amended): once the stopped flag is set, [connection()] raises
    [IOError]; the receive step ends at once and touches nothing; the send
    step performs no write, and when a non-empty packet is queued it logs
    the failure and runs [stop()] again, which calls shutdown and close on
    the socket object directly; a whole loop iteration performs no send and
    no recv on the socket. *)
Theorem stopped_peer_performs_no_socket_io (fuel : nat) (s : St) :
  _stopped s = true ->
  connection s = Raise (Exn IOError "Connection was stopped") s
  /\ _process_recv (S fuel) s = Ret 0%nat s
  /\ (default "" (head (response_queue s)) = "" ->
      _process_send (S fuel) s
      = Ret 0%nat (set_response_queue (tail (response_queue s)) s))
  /\ (default "" (head (response_queue s)) <> "" ->
      exists (s' : St) (evs : list event),
        _process_send (S fuel) s
        = Ret (String.length (default "" (head (response_queue s)))) s'
        /\ trace s'
           = trace s
               ++ Sig_packet_sending (default "" (head (response_queue s)))
               :: Log_debug (repr s +:+ ": send packet failed, "
                               +:+ "Connection was stopped")
               :: evs
        /\ stop_run (repr s) evs)
  /\ (exists (s' : St) (evs : list event),
        loop_body (S fuel) s = Ret tt s'
        /\ _stopped s' = true
        /\ trace s' = trace s ++ evs
        /\ Forall (fun e => is_sock_io e = false) evs).
Proof.
  intros Hst.
  destruct (process_send_stopped fuel s Hst) as [Hempty Hfull].
  split; [unfold connection, bind, stopped; by rewrite Hst|].
  split; [by apply process_recv_stopped|].
  split; [exact Hempty|].
  split.
  - intros Hne. destruct (Hfull Hne) as (s' & evs & Hrun & _ & _ & Ht & Hs).
    by exists s', evs.
  - unfold loop_body, bind.
    destruct (decide (default "" (head (response_queue s)) = ""))
      as [He|Hne].
    + rewrite (Hempty He).
      rewrite (process_recv_stopped fuel
                 (set_response_queue (tail (response_queue s)) s) Hst).
      cbn. eexists _, [Time_sleep 100]. split; [reflexivity|].
      cbn. repeat split; auto.
    + destruct (Hfull Hne) as (s' & evs & Hrun & Hst' & _ & Ht & Hs).
      rewrite Hrun, (process_recv_stopped fuel s' Hst').
      destruct (default "" (head (response_queue s))) as [|a p]; [done|].
      cbn. eexists s', _. split; [reflexivity|].
      split; [done|]. split; [exact Ht|].
      repeat constructor. by eapply stop_run_no_io.
Qed.

(** ** Dispatch *)

(** C6: an undecodable packet is logged, answered with exactly one packet on
    the queue, and neither raises nor stops the connection; but the packet
    is [dump_Disconnect()] built without the reason, the same as for any
    other reason or none: 'Bad protocol' does not reach the wire. *)
Theorem recv_packet_undecodable_reason_not_encoded (fuel : nat)
    (packet : item) (e : exn) (s : St) :
  load_cmd packet = inl e ->
  _recv_packet (S fuel) packet s
  = (logger_warn (exn_msg e) ;; send_Disconnect None) s
  /\ exists s' : St,
       _recv_packet (S fuel) packet s = Ret tt s'
       /\ response_queue s' = response_queue s ++ [dump_Disconnect]
       /\ trace s' = trace s ++ [Log_warn (exn_msg e);
                                 Queue_put dump_Disconnect; Time_sleep 2000;
                                 Sig_disconnect_requested]
       /\ _stopped s' = _stopped s
       /\ _connection s' = _connection s.
Proof.
  intros Hbad. cbn [_recv_packet]. rewrite Hbad.
  split; [reflexivity|].
  eexists. split; [reflexivity|]. cbn.
  repeat split; auto. by rewrite <- !app_assoc.
Qed.

(** ** Peers *)

Lemma ip_parts_ok (bs : list item) :
  forallb ip_byte_ok bs = true ->
  ip_parts bs = inr (map (fun b => str_of_N (byte_value b)) bs).
Proof.
  induction bs as [|b bs IH]; [done|].
  cbn [forallb]. intros [Hb Hbs]%andb_prop.
  cbn [ip_parts map]. rewrite (IH Hbs).
  destruct b as [[|c [|c' r]]|[|x l]]; try done.
Qed.

Lemma parse_peer_ok (bs : list item) (p : string) (pid : item) :
  forallb ip_byte_ok bs = true ->
  parse_peer (Lst [Lst bs; Str p; pid])
  = inr (dotted_quad bs, big_endian_to_int p, pid).
Proof.
  intros Hbs. unfold parse_peer. cbn [unpack3].
  by rewrite (ip_parts_ok _ Hbs).
Qed.

Lemma peers_item_entry (x : item) :
  peers_item_ok x = true ->
  exists e : peer_entry, x = entry_item e /\ entry_ok e = true.
Proof.
  destruct x as [|[|[|bs] [|[p|] [|pid [|]]]]]; try done.
  intros Hbs. by exists (bs, p, pid).
Qed.

Lemma recv_Peers_entries (entries : list peer_entry) (s : St) :
  forallb entry_ok entries = true ->
  exists s' : St,
    _recv_Peers (map entry_item entries) s = Ret tt s'
    /\ trace s' = trace s ++ concat (map entry_events entries)
    /\ response_queue s' = response_queue s
    /\ _stopped s' = _stopped s.
Proof.
  revert s. induction entries as [|[[bs p] pid] entries IH]; intros s.
  - intros _. exists s. by rewrite app_nil_r.
  - cbn [forallb entry_ok]. intros [Hb Hrest]%andb_prop.
    unfold _recv_Peers. cbn [map entry_item for_each].
    unfold bind at 1. unfold bind at 1.
    rewrite (parse_peer_ok _ _ _ Hb). cbn [lift ret].
    unfold logger_debug, signal, modify, bind at 1. cbn [concat map].
    match goal with
    | |- context [for_each _ _ ?s1] =>
        destruct (IH s1 Hrest) as (s' & Hrun & Ht & Hq & Hst)
    end.
    exists s'. split; [exact Hrun|].
    split; [rewrite Ht; cbn; by rewrite <- !app_assoc|].
    by rewrite Hq, Hst.
Qed.

Lemma new_peer_events (entries : list peer_entry) :
  List.filter is_new_peer (concat (map entry_events entries))
  = map entry_notification entries.
Proof.
  induction entries as [|[[bs p] pid] entries IH]; [done|].
  cbn. by rewrite IH.
Qed.

(** C9: every entry [(ip, port, node-id)] of a Peers payload is republished
    on its own, in order, as one [new_peer_received] whose address is the
    dotted quad of the address bytes (an absent or empty byte counting as
    zero) and whose port is the big-endian value of the port bytes; the
    entry (127.0.0.1, 30303, "abc") gives exactly one notification
    ["127.0.0.1", 30303, "abc"]. *)
Theorem recv_Peers_one_notification_per_entry (entries : list peer_entry)
    (s : St) :
  (forallb entry_ok entries = true ->
   exists s' : St,
     _recv_Peers (map entry_item entries) s = Ret tt s'
     /\ trace s' = trace s ++ concat (map entry_events entries)
     /\ List.filter is_new_peer (concat (map entry_events entries))
        = map entry_notification entries)
  /\ exists s' : St,
       _recv_Peers
         [Lst [Lst [Str (chr 127); Str (chr 0); Str (chr 0); Str (chr 1)];
               Str (chr 118 +:+ chr 95); Str "abc"]] s
       = Ret tt s'
       /\ trace s'
          = trace s ++ [Log_debug "received peer address: 127.0.0.1:30303";
                        Sig_new_peer_received "127.0.0.1" 30303 (Str "abc")].
Proof.
  split.
  - intros Hok.
    destruct (recv_Peers_entries entries s Hok) as (s' & Hrun & Ht & _).
    exists s'. split; [exact Hrun|]. split; [exact Ht|].
    apply new_peer_events.
  - eexists. split; [reflexivity|]. cbn. by rewrite <- !app_assoc.
Qed.

(** ** Handlers on well-formed payloads *)

Lemma peers_items_entries (data : list item) :
  forallb peers_item_ok data = true ->
  exists entries : list peer_entry,
    data = map entry_item entries /\ forallb entry_ok entries = true.
Proof.
  induction data as [|x data IH]; [by exists []|].
  cbn [forallb]. intros [Hx Hdata]%andb_prop.
  destruct (peers_item_entry x Hx) as (e & -> & He).
  destruct (IH Hdata) as (entries & -> & Hes).
  exists (e :: entries). cbn. by rewrite He, Hes.
Qed.

Lemma recv_Hello_returns (data : list item) (s : St) :
  payload_ok m_Hello data = true ->
  exists s' : St, _recv_Hello data s = Ret tt s'.
Proof.
  cbn [payload_ok].
  destruct (field data 0) as [v|] eqn:H0; [|done].
  destruct (v =? PROTOCOL_VERSION) eqn:Hv.
  - apply Z.eqb_eq in Hv as ->.
    destruct (field data 1) as [n|] eqn:H1; [intros _|done].
    destruct (decide (n = NETWORK_ID)) as [->|Hn].
    + destruct (recv_Hello_valid data s H0 H1) as (s' & Hrun & _).
      by exists s'.
    + exists (disconnected s). unfold _recv_Hello.
      rewrite (index_field _ _ _ _ _ H0), Z.eqb_refl. cbn [negb].
      rewrite (index_field _ _ _ _ _ H1).
      apply Z.eqb_neq in Hn. by rewrite Hn.
  - intros _. exists (disconnected s). unfold _recv_Hello.
    rewrite (index_field _ _ _ _ _ H0). by rewrite Hv.
Qed.

Lemma recv_Disconnect_returns (data : list item) (s : St) :
  payload_ok m_Disconnect data = true ->
  exists s' : St, _recv_Disconnect data s = Ret tt s'.
Proof.
  cbn [payload_ok]. destruct data as [|d0 data]; [by eexists|].
  destruct (field (d0 :: data) 0) as [k|] eqn:H0; [|done].
  destruct (disconnect_reasons_map_by_id !! k) as [reason|] eqn:Hk;
    [intros _|done].
  unfold _recv_Disconnect. cbn [length Nat.eqb].
  unfold bind at 1. rewrite (index_field _ _ _ _ _ H0).
  unfold reason_by_id. rewrite Hk. by eexists.
Qed.

Lemma call_method_returns (self_recv_packet : item -> M St unit)
    (m : recv_method) (data : list item) (s : St) :
  payload_ok m data = true ->
  exists s' : St, call_method self_recv_packet m data s = Ret tt s'.
Proof.
  destruct m; cbn [call_method]; intros Hok;
    try done; try (by eexists).
  - by apply recv_Hello_returns.
  - by apply recv_Disconnect_returns.
  - cbn [payload_ok] in Hok.
    destruct (peers_items_entries data Hok) as (entries & -> & Hes).
    destruct (recv_Peers_entries entries s Hes) as (s' & Hrun & _).
    by exists s'.
Qed.

(** C8 (as amended): the send step never raises; an undecodable packet and
    an unknown command are logged and dispatch returns; dispatch of a
    decodable packet to its handler returns when the payload has the shape
    the handler reads ([payload_ok]). Nothing is said about other payloads:
    there the handler raises and nothing on the way up catches it. *)
Theorem dispatch_returns_on_wellformed_payloads (fuel : nat) (packet : item)
    (s : St) :
  (forall (e : exn) (s' : St), _process_send fuel s <> Raise e s')
  /\ (forall e : exn,
        load_cmd packet = inl e ->
        exists s' : St,
          _recv_packet (S fuel) packet s = Ret tt s'
          /\ In (Log_warn (exn_msg e)) (trace s')
          /\ _stopped s' = _stopped s)
  /\ (forall (cmd : string) (data : list item),
        load_cmd packet = inr (cmd, data) ->
        recv_methods !! ("_recv_" +:+ cmd) = None ->
        exists s' : St,
          _recv_packet (S fuel) packet s = Ret tt s'
          /\ trace s' = trace s ++ [Log_warn ("unknown cmd " +:+ squote
                                                +:+ "_recv_" +:+ cmd
                                                +:+ squote)]
          /\ response_queue s' = response_queue s
          /\ _stopped s' = _stopped s)
  /\ (forall (cmd : string) (data : list item) (m : recv_method),
        load_cmd packet = inr (cmd, data) ->
        recv_methods !! ("_recv_" +:+ cmd) = Some m ->
        payload_ok m data = true ->
        exists s' : St, _recv_packet (S fuel) packet s = Ret tt s').
Proof.
  split; [intros e s'; apply process_send_no_raise|].
  split; [|split].
  - intros e Hbad. cbn [_recv_packet]. rewrite Hbad.
    eexists. split; [reflexivity|]. cbn. split; [|done].
    rewrite !in_app_iff. cbn. tauto.
  - intros cmd data Hload Hnone. cbn [_recv_packet].
    rewrite Hload. unfold bind, time_time, modify. rewrite Hnone.
    eexists. split; [reflexivity|]. done.
  - intros cmd data m Hload Hsome Hok. cbn [_recv_packet].
    rewrite Hload. unfold bind at 1. unfold time_time.
    unfold bind at 1. unfold modify at 1. rewrite Hsome.
    by apply call_method_returns.
Qed.

End Facts.

(** * Runs on the scripted socket and the table codec *)

Lemma recv_Hello_accept_replies_once_witness :
  field (hello_fields 8 "" (Some node_A)) 0 = Some 8
  /\ field (hello_fields 8 "" (Some node_A)) 1 = Some 0
  /\ exists s' : peer fake_socket,
       @_recv_Hello _ fake_packeter (hello_fields 8 "" (Some node_A))
         (fresh [] []) = Ret tt s'
       /\ hello_received s' = true
       /\ hello_sent s' = true
       /\ (hello_sent (fresh [] []) = false ->
             response_queue s' = response_queue (fresh [] []) ++ ["Hello"]
             /\ trace s' = trace (fresh [] []) ++ [Queue_put "Hello"])
       /\ (hello_sent (fresh [] []) = true ->
             response_queue s' = response_queue (fresh [] [])
             /\ trace s' = trace (fresh [] [])).
Proof.
  split; [reflexivity|]. split; [reflexivity|].
  apply (recv_Hello_accept_replies_once (pk := fake_packeter)
           (hello_fields 8 "" (Some node_A)) (fresh [] []));
    reflexivity.
Defined.

(** C3, the claim as written fails: a second accepted six-field Hello
    replaces a node id that the first one had set. *)
Lemma node_id_overwritten_by_later_Hello :
  exists s1 s2 : peer fake_socket,
    @_recv_Hello _ fake_packeter (hello_fields 8 "" (Some node_A))
      (fresh [] []) = Ret tt s1
    /\ node_id s1 = Str node_A
    /\ @_recv_Hello _ fake_packeter (hello_fields 8 "" (Some node_B)) s1
       = Ret tt s2
    /\ node_id s2 = Str node_B
    /\ node_id s2 <> node_id s1.
Proof.
  exists (state_of (@_recv_Hello _ fake_packeter
                      (hello_fields 8 "" (Some node_A)) (fresh [] []))
            (fresh [] [])).
  exists (state_of
            (@_recv_Hello _ fake_packeter (hello_fields 8 "" (Some node_B))
               (state_of (@_recv_Hello _ fake_packeter
                            (hello_fields 8 "" (Some node_A)) (fresh [] []))
                  (fresh [] [])))
            (fresh [] [])).
  vm_compute. repeat split. discriminate.
Qed.

Lemma recv_Hello_node_id_from_sixth_field_witness :
  field (hello_fields 8 "" (Some node_B)) 0 = Some 8
  /\ field (hello_fields 8 "" (Some node_B)) 1 = Some 0
  /\ exists s' : peer fake_socket,
       @_recv_Hello _ fake_packeter (hello_fields 8 "" (Some node_B))
         (set_node_id (Str node_A) (fresh [] [])) = Ret tt s'
       /\ (length (hello_fields 8 "" (Some node_B)) = 6%nat ->
           hello_fields 8 "" (Some node_B) !! 5%nat = Some (node_id s'))
       /\ (length (hello_fields 8 "" (Some node_B)) <> 6%nat ->
           node_id s' = node_id (set_node_id (Str node_A) (fresh [] []))).
Proof.
  split; [reflexivity|]. split; [reflexivity|].
  apply (recv_Hello_node_id_from_sixth_field (pk := fake_packeter)
           (hello_fields 8 "" (Some node_B))
           (set_node_id (Str node_A) (fresh [] [])));
    reflexivity.
Defined.

Lemma recv_Hello_reject_reason_not_encoded_witness :
  @hello_rejected fake_packeter (hello_fields 7 "" None)
  /\ @_recv_Hello _ fake_packeter (hello_fields 7 "" None) (fresh [] [])
     = @send_Disconnect _ fake_packeter None (fresh [] [])
  /\ @_recv_Hello _ fake_packeter (hello_fields 8 (chr 1) None) (fresh [] [])
     = @_recv_Hello _ fake_packeter (hello_fields 7 "" None) (fresh [] []).
Proof.
  assert (Hrej : @hello_rejected fake_packeter (hello_fields 7 "" None)).
  { left. exists 7. split; [reflexivity|discriminate]. }
  split; [exact Hrej|].
  split.
  - exact (proj1 (recv_Hello_reject_reason_not_encoded (pk := fake_packeter)
                    (hello_fields 7 "" None) (fresh [] []) Hrej)).
  - reflexivity.
Defined.

Section Runs.
#[local] Existing Instance fake_connection.
#[local] Existing Instance fake_packeter.

Lemma fake_writes_progress : writes_progress (conn := fake_connection).
Proof.
  intros c c' buf n Hne. cbn. unfold fake_send.
  destruct buf as [|a buf]; [done|].
  destruct (fs_closed c); [done|].
  destruct (fs_room c) as [|[room|] rest]; intros [= _ <-]; cbn; lia.
Qed.

(** C2, the claim as written fails on the receive path: a read error leaves
    the peer running and writes no log record. *)
Lemma read_failure_neither_logged_nor_fatal :
  conn_recv (_connection (fresh [] [IOFail "Connection reset by peer"])) 2048
  = (FakeSocket [] [] false, IOFail "Connection reset by peer")
  /\ exists s' : peer fake_socket,
       _process_recv 1 (fresh [] [IOFail "Connection reset by peer"])
       = Ret 0%nat s'
       /\ _stopped s' = false
       /\ trace s' = [Sock_recv 2048]
       /\ existsb is_log (trace s') = false.
Proof.
  split; [reflexivity|].
  exists (state_of
            (_process_recv 1 (fresh [] [IOFail "Connection reset by peer"]))
            (fresh [] [])).
  vm_compute. repeat split.
Qed.

Lemma write_failure_stops_read_failure_ends_loop_witness :
  _stopped (fresh [None] []) = false
  /\ (exists (s' : peer fake_socket) (evs : list event),
        send_loop 1 "Ping" (fresh [None] []) = Ret "Ping" s'
        /\ _stopped s' = true
        /\ trace s'
           = trace (fresh [None] [])
               ++ [Sig_packet_sending "Ping"; Sock_send "Ping";
                   Log_debug (repr (fresh [None] [])
                                +:+ ": send packet failed, "
                                +:+ "Broken pipe")]
               ++ evs
        /\ stop_run (repr (fresh [None] [])) evs
        /\ Forall (fun e => is_sock_io e = false) evs)
  /\ recv_loop 1 "" (fresh [None] [])
     = Ret "" (emit (Sock_recv 2048)
                 (set_connection (FakeSocket [None] [] false)
                    (fresh [None] []))).
Proof.
  split; [reflexivity|]. split.
  - apply (proj1 (write_failure_stops_read_failure_ends_loop 0 "Ping"
                    (fresh [None] []) (FakeSocket [] [] false) "Broken pipe"
                    eq_refl)); [discriminate|reflexivity].
  - apply (proj2 (write_failure_stops_read_failure_ends_loop 0 ""
                    (fresh [None] []) (FakeSocket [None] [] false)
                    "Resource temporarily unavailable" eq_refl)).
    reflexivity.
Defined.

(** C4, the claim as written fails: a packet that goes out in two writes is
    reported by [packet_sent] twice, the first time while a byte is still
    unsent. *)
Lemma packet_sent_after_each_partial_write :
  exists s' : peer fake_socket,
    _process_send 2
      (set_response_queue ["ab"] (fresh [Some 1%nat; Some 1%nat] []))
    = Ret 0%nat s'
    /\ trace s' = [Sig_packet_sending "ab"; Sock_send "ab";
                   Sig_packet_sent "b";
                   Sig_packet_sending "b"; Sock_send "b";
                   Sig_packet_sent ""]
    /\ length (List.filter is_packet_sent (trace s')) = 2%nat.
Proof.
  exists (state_of
            (_process_send 2
               (set_response_queue ["ab"]
                  (fresh [Some 1%nat; Some 1%nat] [])))
            (fresh [] [])).
  vm_compute. repeat split.
Qed.

Lemma process_send_one_packet_per_step_witness :
  (String.length
     (default "" (head (response_queue breaking_after_one_byte))) <= 2)%nat
  /\ (exists (n : nat) (s' : peer fake_socket),
        _process_send 2 breaking_after_one_byte = Ret n s')
  /\ _process_send 2 breaking_after_one_byte
     = Ret 1%nat
         (state_of (_process_send 2 breaking_after_one_byte)
            breaking_after_one_byte)
  /\ exists (rest : string) (evs : list event),
       1%nat = String.length rest
       /\ response_queue
            (state_of (_process_send 2 breaking_after_one_byte)
               breaking_after_one_byte)
          = tail (response_queue breaking_after_one_byte)
       /\ trace
            (state_of (_process_send 2 breaking_after_one_byte)
               breaking_after_one_byte)
          = trace breaking_after_one_byte ++ evs
       /\ send_run (repr breaking_after_one_byte)
            (_stopped breaking_after_one_byte)
            (_connection breaking_after_one_byte)
            (default "" (head (response_queue breaking_after_one_byte)))
            evs rest
            (_connection
               (state_of (_process_send 2 breaking_after_one_byte)
                  breaking_after_one_byte))
       /\ (rest = "" ->
           _stopped
             (state_of (_process_send 2 breaking_after_one_byte)
                breaking_after_one_byte)
           = _stopped breaking_after_one_byte)
       /\ (rest <> "" ->
           _stopped
             (state_of (_process_send 2 breaking_after_one_byte)
                breaking_after_one_byte) = true).
Proof.
  split; [cbn; lia|].
  split.
  { apply (proj2 (process_send_one_packet_per_step 2
                    breaking_after_one_byte) fake_writes_progress).
    cbn. lia. }
  assert (Hrun : _process_send 2 breaking_after_one_byte
                 = Ret 1%nat
                     (state_of (_process_send 2 breaking_after_one_byte)
                        breaking_after_one_byte))
    by (vm_compute; reflexivity).
  split; [exact Hrun|].
  exact (proj1 (process_send_one_packet_per_step 2 breaking_after_one_byte)
           1%nat _ Hrun).
Defined.

Lemma recv_packet_undecodable_reason_not_encoded_witness :
  load_cmd (Str "!garbage") = inl (Exn Exception "check sum failed")
  /\ _recv_packet 1 (Str "!garbage") (fresh [] [])
     = (logger_warn "check sum failed" ;; send_Disconnect None) (fresh [] [])
  /\ exists s' : peer fake_socket,
       _recv_packet 1 (Str "!garbage") (fresh [] []) = Ret tt s'
       /\ response_queue s' = ["Disconnect"]
       /\ _stopped s' = false.
Proof.
  split; [reflexivity|].
  split.
  - exact (proj1 (recv_packet_undecodable_reason_not_encoded 0
                    (Str "!garbage") (Exn Exception "check sum failed")
                    (fresh [] []) eq_refl)).
  - exists (state_of (_recv_packet 1 (Str "!garbage") (fresh [] []))
              (fresh [] [])).
    vm_compute. repeat split.
Defined.

(** C8, the claim as written fails: a packet that decodes to a Hello without
    fields makes the handler raise [IndexError], and the exception leaves
    [_recv_packet], [_process_recv] and [loop_body]. *)
Lemma decodable_Hello_without_fields_raises :
  load_cmd (Str "Hello") = inr ("Hello", [])
  /\ (exists s' : peer fake_socket,
        _recv_packet 1 (Str "Hello") (fresh [] [])
        = Raise (Exn IndexError "list index out of range") s')
  /\ exists s' : peer fake_socket,
       loop_body 2 (fresh [] [IOOk "Hello"])
       = Raise (Exn IndexError "list index out of range") s'.
Proof.
  split; [reflexivity|]. split.
  - exists (state_of (_recv_packet 1 (Str "Hello") (fresh [] []))
              (fresh [] [])).
    vm_compute. reflexivity.
  - exists (state_of (loop_body 2 (fresh [] [IOOk "Hello"])) (fresh [] [])).
    vm_compute. reflexivity.
Qed.

Lemma dispatch_returns_on_wellformed_payloads_witness :
  load_cmd (Str "Ping") = inr ("Ping", [])
  /\ recv_methods !! ("_recv_" +:+ "Ping") = Some m_Ping
  /\ payload_ok m_Ping [] = true
  /\ exists s' : peer fake_socket,
       _recv_packet 1 (Str "Ping") (fresh [] []) = Ret tt s'.
Proof.
  split; [reflexivity|]. split; [reflexivity|]. split; [reflexivity|].
  apply (proj2 (proj2 (proj2 (dispatch_returns_on_wellformed_payloads 0
                                (Str "Ping") (fresh [] []))))
           "Ping" [] m_Ping); reflexivity.
Defined.

Lemma recv_Peers_one_notification_per_entry_witness :
  forallb entry_ok
    [([Str (chr 127); Str ""; Lst []; Str (chr 1)], chr 118 +:+ chr 95,
      Str "abc")] = true
  /\ exists s' : peer fake_socket,
       _recv_Peers
         (map entry_item
            [([Str (chr 127); Str ""; Lst []; Str (chr 1)],
              chr 118 +:+ chr 95, Str "abc")]) (fresh [] [])
       = Ret tt s'
       /\ trace s'
          = trace (fresh [] [])
              ++ concat (map entry_events
                   [([Str (chr 127); Str ""; Lst []; Str (chr 1)],
                     chr 118 +:+ chr 95, Str "abc")])
       /\ List.filter is_new_peer
            (concat (map entry_events
               [([Str (chr 127); Str ""; Lst []; Str (chr 1)],
                 chr 118 +:+ chr 95, Str "abc")]))
          = [Sig_new_peer_received "127.0.0.1" 30303 (Str "abc")].
Proof.
  split; [reflexivity|].
  apply (proj1 (recv_Peers_one_notification_per_entry
                  [([Str (chr 127); Str ""; Lst []; Str (chr 1)],
                    chr 118 +:+ chr 95, Str "abc")] (fresh [] []))).
  reflexivity.
Defined.

(** C10, the claim as written fails: with a packet queued, a loop iteration
    on a stopped peer ends in [stop()] again, which calls shutdown and close
    on the closed socket. *)
Lemma stopped_peer_send_step_touches_socket_again :
  _stopped stopped_with_ping = true
  /\ fs_closed (_connection stopped_with_ping) = true
  /\ exists s' : peer fake_socket,
       loop_body 1 stopped_with_ping = Ret tt s'
       /\ trace s'
          = trace stopped_with_ping
              ++ [Sig_packet_sending "Ping";
                  Log_debug ("<Peer(10.0.0.7:30303)>: send packet failed, "
                               +:+ "Connection was stopped");
                  Sock_shutdown;
                  Log_debug ("shutting down failed <Peer(10.0.0.7:30303)> "
                               +:+ dquote +:+ ebadf +:+ dquote);
                  Sock_close]
       /\ existsb is_sock
            [Sig_packet_sending "Ping";
             Log_debug ("<Peer(10.0.0.7:30303)>: send packet failed, "
                          +:+ "Connection was stopped");
             Sock_shutdown;
             Log_debug ("shutting down failed <Peer(10.0.0.7:30303)> "
                          +:+ dquote +:+ ebadf +:+ dquote);
             Sock_close] = true.
Proof.
  split; [vm_compute; reflexivity|]. split; [vm_compute; reflexivity|].
  exists (state_of (loop_body 1 stopped_with_ping) stopped_with_ping).
  vm_compute. repeat split.
Qed.

Lemma stopped_peer_performs_no_socket_io_witness :
  _stopped stopped_with_ping = true
  /\ connection stopped_with_ping
     = Raise (Exn IOError "Connection was stopped") stopped_with_ping
  /\ _process_recv 1 stopped_with_ping = Ret 0%nat stopped_with_ping
  /\ exists (s' : peer fake_socket) (evs : list event),
       loop_body 1 stopped_with_ping = Ret tt s'
       /\ _stopped s' = true
       /\ trace s' = trace stopped_with_ping ++ evs
       /\ Forall (fun e => is_sock_io e = false) evs.
Proof.
  assert (Hst : _stopped stopped_with_ping = true) by (vm_compute; reflexivity).
  split; [exact Hst|].
  destruct (stopped_peer_performs_no_socket_io 0 stopped_with_ping Hst)
    as (Hc & Hr & _ & _ & Hl).
  split; [exact Hc|]. split; [exact Hr|exact Hl].
Defined.

End Runs.

(** * Further properties of the code *)

Section MoreFacts.
Context {Sock : Type} {conn : Connection Sock} {pk : Packeter}.

Abbreviation St := (peer Sock).

(** ** Stopping *)

(** X1: [stop()] never raises: it sets the stopped flag, calls shutdown and
    then close on the socket whatever shutdown answered, and leaves the queue
    alone; when shutdown succeeds nothing is logged, and when it fails the
    failure is logged, with the peer and the error text of the socket,
    between the two calls instead of being passed on. *)
Theorem stop_shuts_down_then_closes (s : St) :
  exists s' : St,
    stop s = Ret tt s'
    /\ _stopped s' = true
    /\ _connection s' = conn_close (conn_shutdown (_connection s)).1
    /\ response_queue s' = response_queue s
    /\ (forall c' : Sock,
          conn_shutdown (_connection s) = (c', IOOk tt) ->
          trace s' = trace s ++ [Sock_shutdown; Sock_close])
    /\ (forall (c' : Sock) (msg : string),
          conn_shutdown (_connection s) = (c', IOFail msg) ->
          trace s'
          = trace s
              ++ [Sock_shutdown;
                  Log_debug ("shutting down failed " +:+ repr s +:+ " "
                               +:+ dquote +:+ msg +:+ dquote);
                  Sock_close]).
Proof.
  exists (after_stop s). rewrite stop_eq.
  split; [done|]. split; [apply after_stop_stopped|].
  destruct (after_stop_exact s) as [Ht Hc].
  split; [exact Hc|]. split; [apply after_stop_queue|].
  rewrite Ht. unfold stop_events.
  split; [intros c' Hs|intros c' msg Hs]; by rewrite Hs.
Qed.

(** X2: [stop()] has no guard of its own: a second call runs the whole
    shutdown and close sequence on the socket again. *)
Theorem stop_twice_runs_the_sequence_twice (s : St) :
  exists (s' : St) (evs1 evs2 : list event),
    (stop ;; stop) s = Ret tt s'
    /\ _stopped s' = true
    /\ trace s' = trace s ++ evs1 ++ evs2
    /\ stop_run (repr s) evs1
    /\ stop_run (repr s) evs2.
Proof.
  destruct (after_stop_trace s) as (evs1 & Ht1 & Hrun1).
  destruct (after_stop_trace (after_stop s)) as (evs2 & Ht2 & Hrun2).
  exists (after_stop (after_stop s)), evs1, evs2.
  unfold bind. rewrite stop_eq, stop_eq.
  split; [done|]. split; [apply after_stop_stopped|].
  split; [by rewrite Ht2, Ht1, app_assoc|].
  split; [done|]. by rewrite after_stop_repr in Hrun2.
Qed.

(** ** Strings *)

Lemma str_drop_all (n : nat) (p : string) :
  (String.length p <= n)%nat -> str_drop n p = "".
Proof.
  revert p. induction n as [|n IH]; intros [|a p]; cbn; try done; try lia.
  intros Hn. apply IH. lia.
Qed.

Lemma str_drop_drop (k n : nat) (p : string) :
  str_drop n (str_drop k p) = str_drop (k + n) p.
Proof.
  revert p. induction k as [|k IH]; intros p; [done|].
  destruct p as [|a p]; cbn; [by destruct n|apply IH].
Qed.

Lemma str_empty_true (p : string) : str_empty p = true -> p = "".
Proof. by destruct p. Qed.

Lemma str_empty_false (p : string) : str_empty p = false -> p <> "".
Proof. by destruct p. Qed.

Lemma str_append_cons (a : ascii) (p q : string) :
  String a p +:+ q = String a (p +:+ q).
Proof. reflexivity. Qed.

Lemma str_append_nil_r (p : string) : p +:+ "" = p.
Proof.
  induction p as [|a p IH]; [done|]. by rewrite str_append_cons, IH.
Qed.

Lemma str_append_assoc (p q r : string) : (p +:+ q) +:+ r = p +:+ q +:+ r.
Proof.
  induction p as [|a p IH]; [done|]. by rewrite !str_append_cons, IH.
Qed.

Lemma str_length_append (p q : string) :
  String.length (p +:+ q) = (String.length p + String.length q)%nat.
Proof.
  induction p as [|a p IH]; [done|]. rewrite str_append_cons. cbn.
  by rewrite IH.
Qed.

(** ** Outbound order *)

Lemma process_send_whole (good : Sock -> Prop) (fuel : nat) (p : string)
    (q : list string) (s : St) :
  takes_all good ->
  good (_connection s) ->
  _stopped s = false ->
  response_queue s = p :: q ->
  exists (s' : St) (evs : list event),
    _process_send (S fuel) s = Ret 0%nat s'
    /\ response_queue s' = q
    /\ _stopped s' = false
    /\ good (_connection s')
    /\ trace s' = trace s ++ evs
    /\ written_bufs evs = (if str_empty p then [] else [p]).
Proof.
  intros Hall Hgood Hst Hq.
  unfold _process_send, bind, queue_get_nowait. rewrite Hq.
  cbn -[send_loop].
  destruct (str_empty p) eqn:Hp.
  - apply str_empty_true in Hp as ->. rewrite send_loop_empty. cbn.
    eexists _, []. rewrite app_nil_r. by repeat split.
  - apply str_empty_false in Hp.
    destruct (Hall (_connection s) p Hgood) as (c' & Hw & Hgood').
    rewrite (send_loop_write_ok fuel p (set_response_queue q s) c' _ Hp Hst Hw).
    rewrite (str_drop_all _ _ (Nat.le_refl _)), send_loop_empty. cbn.
    eexists _, [Sig_packet_sending p; Sock_send p; Sig_packet_sent ""].
    split; [reflexivity|]. cbn. repeat split; auto.
    by rewrite <- !app_assoc.
Qed.

(** X3: with a socket that takes every buffer whole, as many send steps as
    there are packets in the queue empty it and hand the non-empty packets to
    the socket one by one in the order they were queued; the peer stays
    running. *)
Theorem send_steps_flush_queue_in_order (good : Sock -> Prop) (fuel : nat)
    (s : St) :
  takes_all good ->
  good (_connection s) ->
  _stopped s = false ->
  exists (s' : St) (evs : list event),
    send_steps (S fuel) (length (response_queue s)) s = Ret tt s'
    /\ response_queue s' = []
    /\ _stopped s' = false
    /\ trace s' = trace s ++ evs
    /\ written_bufs evs
       = List.filter (fun p => negb (str_empty p)) (response_queue s).
Proof.
  intros Hall. remember (response_queue s) as queue eqn:Hq.
  revert s Hq. induction queue as [|p q IH]; intros s Hq Hgood Hst.
  - exists s, []. rewrite app_nil_r. by repeat split.
  - symmetry in Hq.
    destruct (process_send_whole good fuel p q s Hall Hgood Hst Hq)
      as (s1 & evs1 & Hrun1 & Hq1 & Hst1 & Hgood1 & Ht1 & Hw1).
    destruct (IH s1 (eq_sym Hq1) Hgood1 Hst1)
      as (s' & evs & Hrun & Hq' & Hst' & Ht & Hw).
    exists s', (evs1 ++ evs).
    cbn [length send_steps]. unfold bind at 1. rewrite Hrun1.
    split; [exact Hrun|]. split; [done|]. split; [done|].
    split; [by rewrite Ht, Ht1, app_assoc|].
    unfold written_bufs in *. rewrite omap_app, Hw1, Hw. cbn.
    by destruct (str_empty p).
Qed.

(** ** What a write is offered *)

Lemma str_take_drop (n : nat) (p : string) :
  str_take n p +:+ str_drop n p = p.
Proof.
  revert p. induction n as [|n IH]; intros [|a p]; try done.
  cbn [str_take str_drop]. by rewrite str_append_cons, IH.
Qed.

Lemma drained_conserves (c : Sock) (packet : string)
    (offered : list string) (taken rest : string) :
  drained c packet offered taken rest -> taken +:+ rest = packet.
Proof.
  induction 1 as [c|c c1 packet n offered taken rest Hne Hw Hrun IH
                  |c c1 packet msg Hne Hw]; [done| |done].
  by rewrite str_append_assoc, IH, str_take_drop.
Qed.

Lemma send_run_drained (who : string) (c : Sock) (packet : string)
    (evs : list event) (rest : string) (c' : Sock) :
  send_run who false c packet evs rest c' ->
  exists taken : string, drained c packet (written_bufs evs) taken rest.
Proof.
  intros Hrun. remember false as st eqn:Hst.
  induction Hrun as [st c|c c1 c' packet n evs rest Hne Hw Hrun IH
                     |c c1 packet msg Hne Hw|c packet Hne]; [| | |done].
  - exists "". apply drained_done.
  - destruct (IH eq_refl) as [taken Hd].
    exists (str_take n packet +:+ taken). cbn. by eapply drained_write.
  - exists "".
    replace (written_bufs _) with [packet]; [by eapply drained_failed|].
    unfold written_bufs, stop_events. cbn.
    by destruct (conn_shutdown c1).2.
Qed.

(** X4: a send step of a running peer never re-sends a byte the socket took
    and never skips one: the first buffer it offers is the packet it popped,
    after a write that took [n] bytes the next buffer is the previous one
    without its first [n] bytes, and the bytes the socket took, in order,
    followed by the remainder whose length the step returns, are the packet.
    The step returns whenever every successful write of a non-empty buffer
    takes at least one byte. *)
Theorem process_send_conserves_bytes (fuel : nat) (s : St) :
  _stopped s = false ->
  (forall (n : nat) (s' : St),
     _process_send fuel s = Ret n s' ->
     exists (taken rest : string) (evs : list event),
       trace s' = trace s ++ evs
       /\ drained (_connection s) (default "" (head (response_queue s)))
            (written_bufs evs) taken rest
       /\ n = String.length rest
       /\ taken +:+ rest = default "" (head (response_queue s)))
  /\ (writes_progress ->
      (String.length (default "" (head (response_queue s))) <= fuel)%nat ->
      exists (n : nat) (s' : St), _process_send fuel s = Ret n s').
Proof.
  intros Hst. split.
  - intros n s'.
    unfold _process_send, bind, queue_get_nowait.
    destruct (response_queue s) as [|p q] eqn:Hq; cbn -[send_loop].
    + rewrite send_loop_empty. cbn. intros [= <- <-].
      exists "", "", []. rewrite app_nil_r.
      repeat split; auto using drained_done.
    + destruct (send_loop fuel p (set_response_queue q s))
        as [rest s1|e s1|] eqn:Hrun; [|done|done].
      destruct (send_loop_run fuel _ _ _ _ Hrun) as (evs & Ht & Hevs & _).
      cbn in Ht, Hevs. rewrite Hst in Hevs.
      destruct (send_run_drained _ _ _ _ _ _ Hevs) as [taken Hd].
      intros Hret. exists taken, rest, evs.
      assert (Hn : n = String.length rest /\ s' = s1).
      { destruct rest; by injection Hret as <- <-. }
      destruct Hn as [-> ->].
      repeat split; auto. by eapply drained_conserves.
  - intros Hprog Hlen.
    unfold _process_send, bind, queue_get_nowait.
    destruct (response_queue s) as [|p q] eqn:Hq; cbn -[send_loop] in *.
    + rewrite send_loop_empty. cbn. by eexists _, _.
    + destruct (send_loop_returns fuel Hprog p (set_response_queue q s) Hlen)
        as (rest & s' & Hrun).
      rewrite Hrun. destruct (str_empty rest); by eexists _, _.
Qed.

(** ** The receive step *)

(** The peer after [n] reads that left the socket in [c']. *)
Lemma recv_loop_reads (chunks : list string) :
  forall (fuel : nat) (packet : string) (s : St) (c' : Sock),
    reads (_connection s) chunks c' ->
    _stopped s = false ->
    (length chunks < fuel)%nat ->
    recv_loop fuel packet s
    = Ret (packet +:+ str_concat chunks)
        (set_trace (trace s ++ replicate (S (length chunks)) (Sock_recv 2048))
           (set_connection c' s)).
Proof.
  induction chunks as [|chunk chunks IH]; intros fuel packet s c' Hr Hst Hlen.
  - destruct fuel as [|fuel]; [cbn in Hlen; lia|].
    inversion Hr as [c0 c1 r Hrecv Hend|]; subst. cbn [str_concat foldr].
    rewrite str_append_nil_r.
    destruct Hend as [->|[msg ->]].
    + by rewrite (recv_loop_read_chunk _ _ _ _ _ Hst Hrecv).
    + by rewrite (recv_loop_read_failed _ _ _ _ _ Hst Hrecv).
  - destruct fuel as [|fuel]; [cbn in Hlen; lia|].
    inversion Hr as [|c0 c1 c2 ch chs Hrecv Hne Hrest]; subst.
    rewrite (recv_loop_read_chunk _ _ _ _ _ Hst Hrecv).
    destruct chunk as [|a chunk]; [done|]. cbn [str_empty].
    rewrite (IH fuel _ (emit (Sock_recv 2048) (set_connection c1 s)) c');
      [|exact Hrest|exact Hst|cbn in Hlen; lia].
    cbn [str_concat foldr]. rewrite str_append_assoc.
    f_equal. unfold set_trace, set_connection, emit. cbn.
    by rewrite <- app_assoc.
Qed.

Lemma process_recv_reads (fuel : nat) (chunks : list string) (s : St)
    (c' : Sock) :
  reads (_connection s) chunks c' ->
  _stopped s = false ->
  (length chunks < fuel)%nat ->
  _process_recv fuel s
  = (if str_empty (str_concat chunks) then ret 0%nat
     else (_recv_packet fuel (Str (str_concat chunks)) ;;
           ret (String.length (str_concat chunks))))
      (set_trace (trace s ++ replicate (S (length chunks)) (Sock_recv 2048))
         (set_connection c' s)).
Proof.
  intros Hr Hst Hlen. unfold _process_recv. unfold bind at 1.
  rewrite (recv_loop_reads chunks fuel "" s c' Hr Hst Hlen).
  change ("" +:+ str_concat chunks) with (str_concat chunks).
  destruct (str_empty (str_concat chunks)) eqn:He; [|done].
  apply str_empty_true in He. by rewrite He.
Qed.

(** X5: the receive step reads until a read fails or returns nothing, joins
    the chunks in the order they came, and hands the whole buffer to the
    dispatcher exactly once; without any byte it does not dispatch and
    returns 0; otherwise, when dispatch returns, it returns the number of
    bytes read. *)
Theorem process_recv_dispatches_joined_chunks (fuel : nat)
    (chunks : list string) (s : St) (c' : Sock) :
  reads (_connection s) chunks c' ->
  _stopped s = false ->
  (length chunks < fuel)%nat ->
  _process_recv fuel s
  = (if str_empty (str_concat chunks) then ret 0%nat
     else (_recv_packet fuel (Str (str_concat chunks)) ;;
           ret (String.length (str_concat chunks))))
      (set_trace (trace s ++ replicate (S (length chunks)) (Sock_recv 2048))
         (set_connection c' s)).
Proof. apply process_recv_reads. Qed.

(** ** The loop iteration *)

(** X6: an idle iteration (nothing queued, nothing to read on a running
    peer) writes nothing, reads once and sleeps 100 ms. *)
Theorem loop_body_idle_sleeps (fuel : nat) (s : St) (c' : Sock) :
  _stopped s = false ->
  response_queue s = [] ->
  reads (_connection s) [] c' ->
  exists s' : St,
    loop_body (S fuel) s = Ret tt s'
    /\ trace s' = trace s ++ [Sock_recv 2048; Time_sleep 100]
    /\ now s' = now s + 100
    /\ _stopped s' = false.
Proof.
  intros Hst Hq Hr. unfold loop_body. unfold bind at 1.
  unfold _process_send, bind, queue_get_nowait. rewrite Hq.
  cbn -[send_loop _process_recv]. rewrite send_loop_empty.
  cbn -[_process_recv].
  rewrite (process_recv_reads (S fuel) [] s c' Hr Hst);
    [|cbn; lia].
  cbn. eexists. split; [reflexivity|]. cbn.
  by rewrite <- app_assoc.
Qed.

(** X7: the send step reports bytes left unsent, so after a packet went out
    whole it reports 0 like an empty queue does: an iteration that sent a
    packet and read nothing still sleeps 100 ms. *)
Theorem loop_body_sleeps_after_full_send (fuel n : nat) (p : string)
    (q : list string) (s : St) (c1 c2 : Sock) :
  _stopped s = false ->
  response_queue s = p :: q ->
  p <> "" ->
  conn_send (_connection s) p = (c1, IOOk n) ->
  (String.length p <= n)%nat ->
  reads c1 [] c2 ->
  exists s' : St,
    loop_body (S fuel) s = Ret tt s'
    /\ response_queue s' = q
    /\ trace s' = trace s ++ [Sig_packet_sending p; Sock_send p;
                              Sig_packet_sent ""; Sock_recv 2048;
                              Time_sleep 100].
Proof.
  intros Hst Hq Hne Hw Hn Hr. unfold loop_body. unfold bind at 1.
  unfold _process_send, bind, queue_get_nowait. rewrite Hq.
  cbn -[send_loop _process_recv].
  rewrite (send_loop_write_ok fuel p (set_response_queue q s) c1 n Hne Hst Hw).
  rewrite (str_drop_all _ _ Hn), send_loop_empty.
  cbn -[_process_recv].
  match goal with
  | |- context [_process_recv _ ?s1] =>
      rewrite (process_recv_reads (S fuel) [] s1 c2)
  end; [|exact Hr|exact Hst|cbn; lia].
  cbn. eexists. split; [reflexivity|]. cbn.
  split; [done|]. by rewrite <- !app_assoc.
Qed.

(** ** What the handlers leave alone *)

Lemma ends_after {A} (r : result St A) (P : St -> Prop) :
  ends r P -> after r P.
Proof. by destruct r. Qed.

Lemma dispatch_frame_refl (s : St) : dispatch_frame s s.
Proof.
  constructor; auto; try lia.
  - exists []. by rewrite app_nil_r.
  - exists []. by rewrite app_nil_r.
Qed.

Lemma dispatch_frame_trans (s1 s2 s3 : St) :
  dispatch_frame s1 s2 -> dispatch_frame s2 s3 -> dispatch_frame s1 s3.
Proof.
  intros [A1 A2 A3 A4 (e1 & A5 & A5') (q1 & A6) A7 A8 A9]
         [B1 B2 B3 B4 (e2 & B5 & B5') (q2 & B6) B7 B8 B9].
  constructor; try congruence; auto; try lia.
  - exists (e1 ++ e2). split; [by rewrite B5, A5, app_assoc|].
    by apply Forall_app.
  - exists (q1 ++ q2). by rewrite B6, A6, app_assoc.
Qed.

Lemma handler_frame_refl (s : St) : handler_frame s s.
Proof. split; [apply dispatch_frame_refl|done]. Qed.

Lemma handler_frame_trans (s1 s2 s3 : St) :
  handler_frame s1 s2 -> handler_frame s2 s3 -> handler_frame s1 s3.
Proof.
  intros [A1 A2] [B1 B2].
  split; [by eapply dispatch_frame_trans|congruence].
Qed.

Lemma hk_bind {A B} (m : M St A) (k : A -> M St B) :
  keeps handler_frame m ->
  (forall a, keeps handler_frame (k a)) ->
  keeps handler_frame (bind m k).
Proof.
  intros Hm Hk s. specialize (Hm s). unfold bind.
  destruct (m s) as [a s1|e s1|]; cbn in *; [|done|done].
  specialize (Hk a s1).
  destruct (k a s1) as [b s2|e s2|]; cbn in *; [| |done];
    by eapply handler_frame_trans.
Qed.

Lemma hk_ret {A} (a : A) : keeps handler_frame (ret a : M St A).
Proof. intros s. apply handler_frame_refl. Qed.

Lemma hk_raise {A} (e : exn) : keeps handler_frame (raise e : M St A).
Proof. intros s. apply handler_frame_refl. Qed.

Lemma hk_lift {A} (r : exn + A) : keeps handler_frame (lift r : M St A).
Proof. destruct r; [apply hk_raise|apply hk_ret]. Qed.

Lemma hk_get : keeps handler_frame (get : M St St).
Proof. intros s. apply handler_frame_refl. Qed.

Lemma hk_time_time : keeps handler_frame (time_time : M St Z).
Proof. intros s. apply handler_frame_refl. Qed.

Lemma hk_index (l : list item) (i : nat) :
  keeps handler_frame (index l i : M St item).
Proof. unfold index. destruct (l !! i); [apply hk_ret|apply hk_raise]. Qed.

Lemma hk_emit (e : event) :
  is_sock e = false -> keeps handler_frame (modify (emit e) : M St unit).
Proof.
  intros He s. split; [|done].
  constructor; cbn; auto; try lia.
  - exists [e]. split; [done|]. by constructor.
  - exists []. by rewrite app_nil_r.
Qed.

Lemma hk_send_packet (response : string) :
  keeps handler_frame (send_packet response : M St unit).
Proof.
  intros s. split; [|done].
  constructor; cbn; auto; try lia.
  - exists [Queue_put response]. split; [done|]. by constructor.
  - by exists [response].
Qed.

Lemma hk_time_sleep (ms : Z) :
  0 <= ms -> keeps handler_frame (time_sleep ms : M St unit).
Proof.
  intros Hms s. split; [|done].
  constructor; cbn; auto; try lia.
  - exists [Time_sleep ms]. split; [done|]. by constructor.
  - exists []. by rewrite app_nil_r.
Qed.

Lemma hk_set_hello_received :
  keeps handler_frame (modify (set_hello_received true) : M St unit).
Proof.
  intros s. split; [|done]. constructor; cbn; auto; try lia.
  - exists []. by rewrite app_nil_r.
  - exists []. by rewrite app_nil_r.
Qed.

Lemma hk_set_hello_sent :
  keeps handler_frame (modify (set_hello_sent true) : M St unit).
Proof.
  intros s. split; [|done]. constructor; cbn; auto; try lia.
  - exists []. by rewrite app_nil_r.
  - exists []. by rewrite app_nil_r.
Qed.

Lemma hk_set_node_id (d : item) :
  keeps handler_frame (modify (set_node_id d) : M St unit).
Proof.
  intros s. split; [|done]. constructor; cbn; auto; try lia.
  - exists []. by rewrite app_nil_r.
  - exists []. by rewrite app_nil_r.
Qed.

Lemma hk_for_each {A} (l : list A) (body : A -> M St unit) :
  (forall x, keeps handler_frame (body x)) ->
  keeps handler_frame (for_each l body).
Proof.
  intros Hbody. induction l as [|x l IH]; cbn [for_each]; [apply hk_ret|].
  apply hk_bind; [apply Hbody|intros _; apply IH].
Qed.

(** One step of the proof that a method built from the effects above keeps
    the handler frame. *)
Ltac hk_step :=
  first
    [ apply hk_bind; [|intros ?]
    | apply hk_ret
    | apply hk_raise
    | apply hk_lift
    | apply hk_get
    | apply hk_time_time
    | apply hk_index
    | apply hk_send_packet
    | apply hk_set_hello_received
    | apply hk_set_hello_sent
    | apply hk_set_node_id
    | apply hk_emit; reflexivity
    | apply hk_time_sleep; lia
    | match goal with
      | |- keeps _ (if ?b then _ else _) => destruct b
      | |- keeps _ (match ?x with _ => _ end) => destruct x
      end ].

Lemma hk_send_Disconnect (reason : option string) :
  keeps handler_frame (send_Disconnect reason : M St unit).
Proof. unfold send_Disconnect, signal. repeat hk_step. Qed.

Lemma hk_send_Hello : keeps handler_frame (send_Hello : M St unit).
Proof. unfold send_Hello. repeat hk_step. Qed.

Lemma hk_recv_Hello (data : list item) :
  keeps handler_frame (_recv_Hello data : M St unit).
Proof.
  unfold _recv_Hello.
  repeat first [apply hk_send_Disconnect | apply hk_send_Hello | hk_step].
Qed.

Lemma hk_recv_Disconnect (data : list item) :
  keeps handler_frame (_recv_Disconnect data : M St unit).
Proof.
  unfold _recv_Disconnect, reason_by_id, signal, logger_info.
  repeat hk_step.
Qed.

Lemma hk_recv_Peers (data : list item) :
  keeps handler_frame (_recv_Peers data : M St unit).
Proof.
  unfold _recv_Peers. apply hk_for_each. intros entry.
  unfold signal, logger_debug. repeat hk_step.
Qed.

(** Every handler but the dispatcher itself ends and keeps the handler
    frame. *)
Lemma hk_call_method (self_recv_packet : item -> M St unit)
    (m : recv_method) (data : list item) :
  m <> m_packet ->
  keeps handler_frame (call_method self_recv_packet m data).
Proof.
  intros Hm. destruct m; cbn [call_method]; try done.
  - apply hk_recv_Hello.
  - unfold _recv_Ping, send_Pong. repeat hk_step.
  - unfold _recv_Pong, send_GetTransactions, logger_info. repeat hk_step.
  - apply hk_recv_Disconnect.
  - unfold _recv_GetPeers, signal. repeat hk_step.
  - apply hk_recv_Peers.
  - unfold _recv_GetTransactions, signal, logger_info. repeat hk_step.
  - unfold _recv_Transactions, signal, logger_info. repeat hk_step.
  - unfold _recv_Blocks, signal. repeat hk_step.
  - unfold _recv_GetChain, signal. repeat hk_step.
  - unfold _recv_NotInChain. repeat hk_step.
Qed.

(** ** What dispatch leaves alone *)

Lemma ends_mono {A} (r : result St A) (P Q : St -> Prop) :
  (forall s', P s' -> Q s') -> ends r P -> ends r Q.
Proof. intros HPQ. destruct r; cbn; auto. Qed.

Lemma after_mono {A} (r : result St A) (P Q : St -> Prop) :
  (forall s', P s' -> Q s') -> after r P -> after r Q.
Proof. intros HPQ. destruct r; cbn; auto. Qed.

(** Only the command name [packet] leads back into the dispatcher. *)
Lemma lookup_packet_method (cmd : string) :
  recv_methods !! ("_recv_" +:+ cmd) = Some m_packet -> cmd = "packet".
Proof.
  unfold recv_methods. intros H%elem_of_list_to_map_2.
  cbv [String.append] in H.
  repeat (apply elem_of_cons in H as [H|H]; [by inversion H|]).
  by apply elem_of_nil in H.
Qed.

Lemma recv_packet_dispatch (fuel : nat) (packet : item) (cmd : string)
    (data : list item) (m : recv_method) (s : St) :
  load_cmd packet = inr (cmd, data) ->
  recv_methods !! ("_recv_" +:+ cmd) = Some m ->
  _recv_packet (S fuel) packet s
  = call_method (_recv_packet fuel) m data
      (set_last_valid_packet_received (now s) s).
Proof.
  intros Hload Hm. cbn [_recv_packet]. rewrite Hload.
  unfold bind at 1. unfold time_time. unfold bind at 1. unfold modify at 1.
  by rewrite Hm.
Qed.

Lemma set_last_valid_frame (t : Z) (s : St) :
  dispatch_frame s (set_last_valid_packet_received t s).
Proof.
  constructor; cbn; auto; try lia.
  - exists []. by rewrite app_nil_r.
  - exists []. by rewrite app_nil_r.
Qed.

Lemma undecodable_post (packet : item) (e : exn) (s : St) :
  load_cmd packet = inl e ->
  ends ((logger_warn (exn_msg e) ;; send_Disconnect (Some "Bad protocol")) s)
       (dispatch_post packet s).
Proof.
  intros Hload.
  assert (Hk : keeps handler_frame
                 (logger_warn (exn_msg e) ;;
                  send_Disconnect (Some "Bad protocol") : M St unit)).
  { unfold logger_warn. apply hk_bind; [by apply hk_emit|].
    intros _. apply hk_send_Disconnect. }
  eapply ends_mono; [|apply Hk].
  intros s' [Hf Hlv]. split; [done|]. by rewrite Hload.
Qed.

Lemma handler_post (packet : item) (cmd : string) (data : list item)
    (s s' : St) :
  load_cmd packet = inr (cmd, data) ->
  handler_frame (set_last_valid_packet_received (now s) s) s' ->
  dispatch_post packet s s'.
Proof.
  intros Hload [Hf Hlv]. split.
  - eapply dispatch_frame_trans; [apply set_last_valid_frame|exact Hf].
  - by rewrite Hload, Hlv.
Qed.

Lemma recv_packet_post_weak (fuel : nat) :
  forall (packet : item) (s : St),
    after (_recv_packet fuel packet s) (dispatch_post packet s).
Proof.
  induction fuel as [|fuel IH]; intros packet s; [done|].
  destruct (load_cmd packet) as [e|[cmd data]] eqn:Hload.
  - cbn [_recv_packet]. rewrite Hload.
    apply ends_after. by apply undecodable_post.
  - destruct (recv_methods !! ("_recv_" +:+ cmd)) as [m|] eqn:Hm.
    + rewrite (recv_packet_dispatch _ _ _ _ _ _ Hload Hm).
      assert (Hdec : m = m_packet \/ m <> m_packet)
        by (destruct m; first [left; reflexivity|right; discriminate]).
      destruct Hdec as [->|Hne].
      * cbn [call_method].
        eapply after_mono; [|apply IH].
        intros s' [Hf Hlv]. split.
        -- eapply dispatch_frame_trans; [apply set_last_valid_frame|done].
        -- rewrite Hload, Hlv. by destruct (load_cmd (Lst data)).
      * apply ends_after.
        eapply ends_mono; [|by apply hk_call_method].
        intros s'. by apply (handler_post packet cmd data).
    + cbn [_recv_packet]. rewrite Hload.
      unfold bind at 1. unfold time_time. unfold bind at 1.
      unfold modify at 1. rewrite Hm.
      apply ends_after.
      eapply ends_mono;
        [|apply (hk_emit (Log_warn ("unknown cmd " +:+ squote +:+ "_recv_"
                                      +:+ cmd +:+ squote)) eq_refl)].
      intros s'. by apply (handler_post packet cmd data).
Qed.

Lemma recv_packet_post_strong (fuel : nat) (packet : item) (s : St) :
  not_reentrant packet ->
  ends (_recv_packet (S fuel) packet s) (dispatch_post packet s).
Proof.
  intros Hnr.
  destruct (load_cmd packet) as [e|[cmd data]] eqn:Hload.
  - cbn [_recv_packet]. rewrite Hload. by apply undecodable_post.
  - destruct (recv_methods !! ("_recv_" +:+ cmd)) as [m|] eqn:Hm.
    + rewrite (recv_packet_dispatch _ _ _ _ _ _ Hload Hm).
      assert (Hne : m <> m_packet).
      { intros ->. apply lookup_packet_method in Hm.
        by apply (Hnr cmd data). }
      eapply ends_mono; [|by apply hk_call_method].
      intros s'. by apply (handler_post packet cmd data).
    + cbn [_recv_packet]. rewrite Hload.
      unfold bind at 1. unfold time_time. unfold bind at 1.
      unfold modify at 1. rewrite Hm.
      eapply ends_mono;
        [|apply (hk_emit (Log_warn ("unknown cmd " +:+ squote +:+ "_recv_"
                                      +:+ cmd +:+ squote)) eq_refl)].
      intros s'. by apply (handler_post packet cmd data).
Qed.

(** X8: dispatching an inbound packet, whatever it is and however the
    handler ends, never sets or clears the stopped flag, never replaces the
    socket and performs no socket call; for every packet that does not lead
    back into the dispatcher, dispatch does end. *)
Theorem dispatch_leaves_socket_and_lifecycle_alone (fuel : nat)
    (packet : item) (s : St) :
  after (_recv_packet fuel packet s)
    (fun s' =>
       _stopped s' = _stopped s
       /\ _connection s' = _connection s
       /\ exists evs, trace s' = trace s ++ evs
                      /\ Forall (fun e => is_sock e = false) evs)
  /\ (not_reentrant packet ->
      ends (_recv_packet (S fuel) packet s)
        (fun s' =>
           _stopped s' = _stopped s
           /\ _connection s' = _connection s
           /\ exists evs, trace s' = trace s ++ evs
                          /\ Forall (fun e => is_sock e = false) evs)).
Proof.
  split; [|intros Hnr].
  - eapply after_mono; [|apply recv_packet_post_weak].
    intros s' [[] _]. auto.
  - eapply ends_mono; [|by apply recv_packet_post_strong].
    intros s' [[] _]. auto.
Qed.

(** X9: dispatching an inbound packet never takes a packet off the outbound
    queue or reorders it (the queue only grows at its end) and never resets
    [hello_received] or [hello_sent] once they are true. *)
Theorem dispatch_only_appends_and_keeps_handshake (fuel : nat)
    (packet : item) (s : St) :
  after (_recv_packet fuel packet s)
    (fun s' =>
       (exists q, response_queue s' = response_queue s ++ q)
       /\ (hello_received s = true -> hello_received s' = true)
       /\ (hello_sent s = true -> hello_sent s' = true))
  /\ (not_reentrant packet ->
      ends (_recv_packet (S fuel) packet s)
        (fun s' =>
           (exists q, response_queue s' = response_queue s ++ q)
           /\ (hello_received s = true -> hello_received s' = true)
           /\ (hello_sent s = true -> hello_sent s' = true))).
Proof.
  split; [|intros Hnr].
  - eapply after_mono; [|apply recv_packet_post_weak].
    intros s' [[] _]. auto.
  - eapply ends_mono; [|by apply recv_packet_post_strong].
    intros s' [[] _]. auto.
Qed.

(** X10: [last_valid_packet_received] is set to the clock reading at entry
    for every packet that decodes, also when the command is unknown or the
    handler raises, and is left as it was for a packet that does not
    decode. *)
Theorem dispatch_stamps_decodable_packets (fuel : nat) (packet : item)
    (s : St) :
  after (_recv_packet fuel packet s)
    (fun s' =>
       last_valid_packet_received s'
       = match load_cmd packet with
         | inl _ => last_valid_packet_received s
         | inr _ => now s
         end)
  /\ (not_reentrant packet ->
      ends (_recv_packet (S fuel) packet s)
        (fun s' =>
           last_valid_packet_received s'
           = match load_cmd packet with
             | inl _ => last_valid_packet_received s
             | inr _ => now s
             end)).
Proof.
  split; [|intros Hnr].
  - eapply after_mono; [|apply recv_packet_post_weak].
    by intros s' [_ Hlv].
  - eapply ends_mono; [|by apply recv_packet_post_strong].
    by intros s' [_ Hlv].
Qed.

(** ** Single commands *)

Lemma lookup_Ping : recv_methods !! ("_recv_" +:+ "Ping") = Some m_Ping.
Proof. by vm_compute. Qed.

Lemma lookup_Pong : recv_methods !! ("_recv_" +:+ "Pong") = Some m_Pong.
Proof. by vm_compute. Qed.

Lemma lookup_GetPeers :
  recv_methods !! ("_recv_" +:+ "GetPeers") = Some m_GetPeers.
Proof. by vm_compute. Qed.

Lemma lookup_GetTransactions :
  recv_methods !! ("_recv_" +:+ "GetTransactions") = Some m_GetTransactions.
Proof. by vm_compute. Qed.

Lemma lookup_GetChain :
  recv_methods !! ("_recv_" +:+ "GetChain") = Some m_GetChain.
Proof. by vm_compute. Qed.

Lemma lookup_packet :
  recv_methods !! ("_recv_" +:+ "packet") = Some m_packet.
Proof. by vm_compute. Qed.

(** X11: a packet that decodes to Ping puts exactly one Pong on the queue; a
    packet that decodes to Pong logs and puts exactly one GetTransactions
    request on the queue; the payload is not looked at in either case. *)
Theorem dispatch_Ping_and_Pong (fuel : nat) (packet : item)
    (data : list item) (s : St) :
  (load_cmd packet = inr ("Ping", data) ->
   exists s' : St,
     _recv_packet (S fuel) packet s = Ret tt s'
     /\ response_queue s' = response_queue s ++ [dump_Pong]
     /\ trace s' = trace s ++ [Queue_put dump_Pong])
  /\ (load_cmd packet = inr ("Pong", data) ->
      exists s' : St,
        _recv_packet (S fuel) packet s = Ret tt s'
        /\ response_queue s' = response_queue s ++ [dump_GetTransactions]
        /\ trace s' = trace s ++ [Log_info "asking for transactions";
                                  Queue_put dump_GetTransactions]).
Proof.
  split; intros Hload.
  - rewrite (recv_packet_dispatch _ _ _ _ _ _ Hload lookup_Ping).
    eexists. split; [reflexivity|]. by cbn.
  - rewrite (recv_packet_dispatch _ _ _ _ _ _ Hload lookup_Pong).
    eexists. split; [reflexivity|]. cbn. split; [done|].
    by rewrite <- app_assoc.
Qed.

(** X12: the request commands are not answered on the spot: GetPeers,
    GetTransactions and GetChain put nothing on the queue and issue exactly
    one asynchronous data request, for peers with the payload, for
    transactions without it, for blocks with the payload, each naming the
    sender to call back. *)
Theorem dispatch_requests_reply_later (fuel : nat) (packet : item)
    (data : list item) (s : St) :
  (load_cmd packet = inr ("GetPeers", data) ->
   exists s' : St,
     _recv_packet (S fuel) packet s = Ret tt s'
     /\ response_queue s' = response_queue s
     /\ trace s'
        = trace s ++ [Sig_request_data_async "peers" (Some data)
                        cb_send_Peers])
  /\ (load_cmd packet = inr ("GetTransactions", data) ->
      exists s' : St,
        _recv_packet (S fuel) packet s = Ret tt s'
        /\ response_queue s' = response_queue s
        /\ trace s'
           = trace s ++ [Log_info "asking for transactions";
                         Sig_request_data_async "transactions" None
                           cb_send_Transactions])
  /\ (load_cmd packet = inr ("GetChain", data) ->
      exists s' : St,
        _recv_packet (S fuel) packet s = Ret tt s'
        /\ response_queue s' = response_queue s
        /\ trace s'
           = trace s ++ [Sig_request_data_async "blocks" (Some data)
                           cb_send_Blocks]).
Proof.
  split; [|split]; intros Hload.
  - rewrite (recv_packet_dispatch _ _ _ _ _ _ Hload lookup_GetPeers).
    eexists. split; [reflexivity|]. by cbn.
  - rewrite (recv_packet_dispatch _ _ _ _ _ _ Hload lookup_GetTransactions).
    eexists. split; [reflexivity|]. cbn. split; [done|].
    by rewrite <- app_assoc.
  - rewrite (recv_packet_dispatch _ _ _ _ _ _ Hload lookup_GetChain).
    eexists. split; [reflexivity|]. by cbn.
Qed.

(** X13: the dispatcher is itself one of the [_recv_*] attributes, so a packet
    that decodes to the command name [packet] is dispatched to
    [_recv_packet] with the payload list as the packet; when the codec
    rejects that list the peer answers the decodable packet with a
    Disconnect, after stamping it as valid. *)
Theorem dispatch_reenters_on_command_packet (fuel : nat) (packet : item)
    (data : list item) (e : exn) (s : St) :
  load_cmd packet = inr ("packet", data) ->
  load_cmd (Lst data) = inl e ->
  exists s' : St,
    _recv_packet (S (S fuel)) packet s = Ret tt s'
    /\ last_valid_packet_received s' = now s
    /\ response_queue s' = response_queue s ++ [dump_Disconnect]
    /\ trace s' = trace s ++ [Log_warn (exn_msg e);
                              Queue_put dump_Disconnect; Time_sleep 2000;
                              Sig_disconnect_requested].
Proof.
  intros Hload Hbad.
  rewrite (recv_packet_dispatch _ _ _ _ _ _ Hload lookup_packet).
  cbn [call_method _recv_packet]. rewrite Hbad.
  eexists. split; [reflexivity|]. cbn. split; [done|]. split; [done|].
  by rewrite <- !app_assoc.
Qed.

(** X14: [_recv_Disconnect] notifies [disconnect_requested] once for an empty
    payload and, after logging the reason, for a reason code of the table;
    for a reason code that is not in the table it raises [KeyError] before
    the notification, leaving the peer as it was. It never queues a packet
    and never stops the peer. *)
Theorem recv_Disconnect_reason_lookup (data : list item) (s : St) :
  _recv_Disconnect [] s = Ret tt (emit Sig_disconnect_requested s)
  /\ (forall (k : Z) (reason : string),
        field data 0 = Some k ->
        disconnect_reasons_map_by_id !! k = Some reason ->
        _recv_Disconnect data s
        = Ret tt
            (emit Sig_disconnect_requested
               (emit (Log_info (repr s +:+ " sent disconnect, " +:+ reason
                                  +:+ " ")) s)))
  /\ (forall k : Z,
        field data 0 = Some k ->
        disconnect_reasons_map_by_id !! k = None ->
        _recv_Disconnect data s = Raise (Exn KeyError (str_of_Z k)) s).
Proof.
  split; [done|].
  split; intros k.
  - intros reason H0 Hk. destruct data as [|d0 data]; [done|].
    unfold _recv_Disconnect. cbn [length Nat.eqb].
    unfold bind at 1. rewrite (index_field _ _ _ _ _ H0).
    unfold reason_by_id. by rewrite Hk.
  - intros H0 Hk. destruct data as [|d0 data]; [done|].
    unfold _recv_Disconnect. cbn [length Nat.eqb].
    unfold bind at 1. rewrite (index_field _ _ _ _ _ H0).
    unfold reason_by_id. by rewrite Hk.
Qed.

(** X15: a Hello that is too short is not answered: with no field at all, or
    with a matching version and no network id field, [_recv_Hello] raises
    [IndexError] and leaves the peer as it was (no Disconnect queued, the
    handshake flags untouched). *)
Theorem recv_Hello_short_payload_raises (data : list item) (s : St) :
  _recv_Hello [] s = Raise (Exn IndexError "list index out of range") s
  /\ (field data 0 = Some PROTOCOL_VERSION ->
      data !! 1%nat = None ->
      _recv_Hello data s
      = Raise (Exn IndexError "list index out of range") s).
Proof.
  split; [done|]. intros H0 H1. unfold _recv_Hello.
  rewrite (index_field _ _ _ _ _ H0), Z.eqb_refl. cbn [negb].
  unfold bind, index. by rewrite H1.
Qed.

(** X16: [_recv_Peers] works entry by entry: the entries before the first
    malformed one are published, then the exception of the malformed entry
    leaves the handler and the entries after it are never looked at. *)
Theorem recv_Peers_stops_at_first_bad_entry (good : list peer_entry)
    (bad : item) (rest : list item) (e : exn) (s : St) :
  forallb entry_ok good = true ->
  parse_peer bad = inl e ->
  exists s' : St,
    _recv_Peers (map entry_item good ++ bad :: rest) s = Raise e s'
    /\ trace s' = trace s ++ concat (map entry_events good)
    /\ response_queue s' = response_queue s.
Proof.
  intros Hgood Hbad. revert s Hgood.
  induction good as [|[[bs p] pid] good IH]; intros s Hgood.
  - exists s. unfold _recv_Peers. cbn [map app for_each].
    unfold bind at 1. unfold bind at 1. rewrite Hbad. cbn.
    by rewrite app_nil_r.
  - cbn [forallb entry_ok] in Hgood. apply andb_prop in Hgood as [Hb Hgood].
    unfold _recv_Peers. cbn [map app entry_item for_each].
    unfold bind at 1. unfold bind at 1.
    rewrite (parse_peer_ok _ _ _ Hb). cbn [lift ret].
    unfold logger_debug, signal, modify, bind at 1. cbn [concat map].
    match goal with
    | |- context [for_each _ _ ?s1] =>
        destruct (IH s1 Hgood) as (s' & Hrun & Ht & Hq)
    end.
    exists s'. split; [exact Hrun|].
    split; [rewrite Ht; cbn; by rewrite <- !app_assoc|by rewrite Hq].
Qed.

(** ** Addresses *)

Lemma str_count_append (c : ascii) (p q : string) :
  str_count c (p +:+ q) = (str_count c p + str_count c q)%nat.
Proof.
  induction p as [|a p IH]; [done|]. rewrite str_append_cons. cbn.
  rewrite IH. lia.
Qed.

Lemma str_count_uint (d : Decimal.uint) :
  str_count "." (NilEmpty.string_of_uint d) = 0%nat.
Proof. induction d; cbn; auto. Qed.

Lemma str_count_str_of_N (n : N) : str_count "." (str_of_N n) = 0%nat.
Proof.
  unfold str_of_N, NilZero.string_of_uint.
  destruct (N.to_uint n) eqn:E; try (rewrite <- E); try done;
    rewrite ?E; apply str_count_uint.
Qed.

Lemma str_count_dotted_quad (bs : list item) :
  str_count "." (dotted_quad bs) = (length bs - 1)%nat.
Proof.
  unfold dotted_quad. induction bs as [|b [|b' bs] IH]; [done| |].
  - cbn. apply str_count_str_of_N.
  - cbn [map join] in *. rewrite !str_count_append, IH, str_count_str_of_N.
    cbn. lia.
Qed.

(** X17: the address [_recv_Peers] works out for an entry is accepted by
    the constructor of [Peer], whose assertion wants exactly three dots,
    exactly when the entry's address has four bytes; the peer it builds is
    running, with an empty queue, no Hello sent or received and no node
    id. *)
Theorem published_address_fits_constructor (bs : list item) (p : string)
    (pid : item) (c : Sock) (t : Z) :
  forallb ip_byte_ok bs = true ->
  exists (addr : string) (prt : Z),
    parse_peer (Lst [Lst bs; Str p; pid]) = inr (addr, prt, pid)
    /\ (length bs = 4%nat ->
        exists s0 : St,
          Peer_init c addr (Some prt) t = inr s0
          /\ ip s0 = addr
          /\ port s0 = Some prt
          /\ _stopped s0 = false
          /\ response_queue s0 = []
          /\ hello_received s0 = false
          /\ hello_sent s0 = false
          /\ node_id s0 = Str "")
    /\ (length bs <> 4%nat ->
        Peer_init c addr (Some prt) t = inl (Exn AssertionError "")).
Proof.
  intros Hbs. exists (dotted_quad bs), (big_endian_to_int p).
  split; [by apply parse_peer_ok|].
  unfold Peer_init. rewrite str_count_dotted_quad. split; intros Hlen.
  - rewrite Hlen. cbn. eexists. split; [reflexivity|]. by cbn.
  - destruct (Nat.eqb (length bs - 1) 3) eqn:E; [|done].
    apply Nat.eqb_eq in E. lia.
Qed.

End MoreFacts.

(** * Runs for the further properties *)

Section MoreRuns.
#[local] Existing Instance fake_connection.
#[local] Existing Instance fake_packeter.

Lemma fake_takes_all : takes_all (conn := fake_connection) fake_open.
Proof.
  intros c buf [Hopen Hroom]. exists c. cbn. unfold fake_send.
  by rewrite Hopen, Hroom.
Qed.

Lemma fake_open_fresh (inbox : list (io string)) (q : list string) :
  fake_open (_connection (set_response_queue q (fresh [] inbox))).
Proof. by split. Qed.

Lemma ping_not_reentrant : not_reentrant (Str "Ping").
Proof. intros cmd data [= <- _]. discriminate. Qed.

Lemma send_steps_flush_queue_in_order_witness :
  _stopped (set_response_queue ["ab"; ""; "cd"] (fresh [] [])) = false
  /\ exists (s' : peer fake_socket) (evs : list event),
       send_steps 1
         (length (response_queue
                    (set_response_queue ["ab"; ""; "cd"] (fresh [] []))))
         (set_response_queue ["ab"; ""; "cd"] (fresh [] [])) = Ret tt s'
       /\ response_queue s' = []
       /\ _stopped s' = false
       /\ trace s'
          = trace (set_response_queue ["ab"; ""; "cd"] (fresh [] [])) ++ evs
       /\ written_bufs evs
          = List.filter (fun p => negb (str_empty p))
              (response_queue
                 (set_response_queue ["ab"; ""; "cd"] (fresh [] []))).
Proof.
  split; [reflexivity|].
  apply (send_steps_flush_queue_in_order fake_open 0
           (set_response_queue ["ab"; ""; "cd"] (fresh [] []))
           fake_takes_all (fake_open_fresh [] ["ab"; ""; "cd"]) eq_refl).
Defined.

Lemma fake_after_two_then_one :
  _process_send 3 taking_two_then_one
  = Ret 0%nat (state_of (_process_send 3 taking_two_then_one)
                 taking_two_then_one).
Proof. vm_compute. reflexivity. Qed.

Lemma process_send_conserves_bytes_witness :
  _stopped taking_two_then_one = false
  /\ (String.length
        (default "" (head (response_queue taking_two_then_one))) <= 3)%nat
  /\ (exists (n : nat) (s' : peer fake_socket),
        _process_send 3 taking_two_then_one = Ret n s')
  /\ exists (taken rest : string) (evs : list event),
       trace (state_of (_process_send 3 taking_two_then_one)
                taking_two_then_one)
       = trace taking_two_then_one ++ evs
       /\ drained (_connection taking_two_then_one)
            (default "" (head (response_queue taking_two_then_one)))
            (written_bufs evs) taken rest
       /\ 0%nat = String.length rest
       /\ taken +:+ rest
          = default "" (head (response_queue taking_two_then_one)).
Proof.
  split; [reflexivity|]. split; [cbn; lia|].
  split.
  { apply (proj2 (process_send_conserves_bytes 3 taking_two_then_one
                    eq_refl) fake_writes_progress).
    cbn. lia. }
  exact (proj1 (process_send_conserves_bytes 3 taking_two_then_one eq_refl)
           0%nat _ fake_after_two_then_one).
Defined.

Lemma stop_shuts_down_then_closes_witness :
  conn_shutdown (_connection (fresh [] []))
  = (FakeSocket [] [] false, IOOk tt)
  /\ conn_shutdown (_connection stopped_with_ping)
     = (_connection stopped_with_ping, IOFail ebadf)
  /\ (exists s' : peer fake_socket,
        stop (fresh [] []) = Ret tt s'
        /\ trace s' = trace (fresh [] []) ++ [Sock_shutdown; Sock_close])
  /\ exists s' : peer fake_socket,
       stop stopped_with_ping = Ret tt s'
       /\ trace s'
          = trace stopped_with_ping
              ++ [Sock_shutdown;
                  Log_debug ("shutting down failed "
                               +:+ repr stopped_with_ping +:+ " "
                               +:+ dquote +:+ ebadf +:+ dquote);
                  Sock_close].
Proof.
  assert (Hclean : conn_shutdown (_connection (fresh [] []))
                   = (FakeSocket [] [] false, IOOk tt)) by reflexivity.
  assert (Hfail : conn_shutdown (_connection stopped_with_ping)
                  = (_connection stopped_with_ping, IOFail ebadf))
    by (vm_compute; reflexivity).
  split; [exact Hclean|]. split; [exact Hfail|]. split.
  - destruct (stop_shuts_down_then_closes (fresh [] []))
      as (s' & Hrun & _ & _ & _ & Hok & _).
    exists s'. split; [exact Hrun|exact (Hok _ Hclean)].
  - destruct (stop_shuts_down_then_closes stopped_with_ping)
      as (s' & Hrun & _ & _ & _ & _ & Hko).
    exists s'. split; [exact Hrun|exact (Hko _ _ Hfail)].
Defined.

Lemma reads_two_chunks :
  reads (_connection (fresh [] [IOOk "He"; IOOk "llo"])) ["He"; "llo"]
    (FakeSocket [] [] false).
Proof.
  eapply reads_chunk; [reflexivity|discriminate|].
  eapply reads_chunk; [reflexivity|discriminate|].
  eapply reads_end; [reflexivity|]. right. by eexists.
Qed.

Lemma reads_nothing :
  reads (_connection (fresh [] [])) [] (FakeSocket [] [] false).
Proof. eapply reads_end; [reflexivity|]. right. by eexists. Qed.

Lemma process_recv_dispatches_joined_chunks_witness :
  _stopped (fresh [] [IOOk "He"; IOOk "llo"]) = false
  /\ (length ["He"; "llo"] < 3)%nat
  /\ _process_recv 3 (fresh [] [IOOk "He"; IOOk "llo"])
     = (if str_empty (str_concat ["He"; "llo"]) then ret 0%nat
        else (_recv_packet 3 (Str (str_concat ["He"; "llo"])) ;;
              ret (String.length (str_concat ["He"; "llo"]))))
         (set_trace
            (trace (fresh [] [IOOk "He"; IOOk "llo"])
               ++ replicate (S (length ["He"; "llo"])) (Sock_recv 2048))
            (set_connection (FakeSocket [] [] false)
               (fresh [] [IOOk "He"; IOOk "llo"]))).
Proof.
  split; [reflexivity|]. split; [cbn; lia|].
  apply (process_recv_dispatches_joined_chunks 3 ["He"; "llo"]
           (fresh [] [IOOk "He"; IOOk "llo"]) (FakeSocket [] [] false)
           reads_two_chunks eq_refl).
  cbn. lia.
Defined.

Lemma loop_body_idle_sleeps_witness :
  _stopped (fresh [] []) = false
  /\ response_queue (fresh [] []) = []
  /\ exists s' : peer fake_socket,
       loop_body 1 (fresh [] []) = Ret tt s'
       /\ trace s' = trace (fresh [] []) ++ [Sock_recv 2048; Time_sleep 100]
       /\ now s' = now (fresh [] []) + 100
       /\ _stopped s' = false.
Proof.
  split; [reflexivity|]. split; [reflexivity|].
  exact (loop_body_idle_sleeps 0 (fresh [] []) (FakeSocket [] [] false)
           eq_refl eq_refl reads_nothing).
Defined.

Lemma loop_body_sleeps_after_full_send_witness :
  _stopped (set_response_queue ["Ping"; "Pong"] (fresh [] [])) = false
  /\ conn_send (_connection (set_response_queue ["Ping"; "Pong"]
                              (fresh [] []))) "Ping"
     = (FakeSocket [] [] false, IOOk 4%nat)
  /\ exists s' : peer fake_socket,
       loop_body 1 (set_response_queue ["Ping"; "Pong"] (fresh [] []))
       = Ret tt s'
       /\ response_queue s' = ["Pong"]
       /\ trace s'
          = trace (set_response_queue ["Ping"; "Pong"] (fresh [] []))
              ++ [Sig_packet_sending "Ping"; Sock_send "Ping";
                  Sig_packet_sent ""; Sock_recv 2048; Time_sleep 100].
Proof.
  split; [reflexivity|]. split; [reflexivity|].
  apply (loop_body_sleeps_after_full_send 0 4 "Ping" ["Pong"]
           (set_response_queue ["Ping"; "Pong"] (fresh [] []))
           (FakeSocket [] [] false) (FakeSocket [] [] false)
           eq_refl eq_refl);
    [discriminate|reflexivity|cbn; lia|exact reads_nothing].
Defined.

Lemma dispatch_leaves_socket_and_lifecycle_alone_witness :
  not_reentrant (Str "Ping")
  /\ ends (_recv_packet 1 (Str "Ping") (fresh [] []))
       (fun s' =>
          _stopped s' = _stopped (fresh [] [])
          /\ _connection s' = _connection (fresh [] [])
          /\ exists evs, trace s' = trace (fresh [] []) ++ evs
                         /\ Forall (fun e => is_sock e = false) evs).
Proof.
  split; [exact ping_not_reentrant|].
  exact (proj2 (dispatch_leaves_socket_and_lifecycle_alone 0 (Str "Ping")
                  (fresh [] [])) ping_not_reentrant).
Defined.

Lemma dispatch_only_appends_and_keeps_handshake_witness :
  not_reentrant (Str "Ping")
  /\ ends (_recv_packet 1 (Str "Ping") (fresh [] []))
       (fun s' =>
          (exists q,
             response_queue s' = response_queue (fresh [] []) ++ q)
          /\ (hello_received (fresh [] []) = true -> hello_received s' = true)
          /\ (hello_sent (fresh [] []) = true -> hello_sent s' = true)).
Proof.
  split; [exact ping_not_reentrant|].
  exact (proj2 (dispatch_only_appends_and_keeps_handshake 0 (Str "Ping")
                  (fresh [] [])) ping_not_reentrant).
Defined.

Lemma dispatch_stamps_decodable_packets_witness :
  not_reentrant (Str "Ping")
  /\ ends (_recv_packet 1 (Str "Ping") (fresh [] []))
       (fun s' =>
          last_valid_packet_received s'
          = match load_cmd (Str "Ping") with
            | inl _ => last_valid_packet_received (fresh [] [])
            | inr _ => now (fresh [] [])
            end).
Proof.
  split; [exact ping_not_reentrant|].
  exact (proj2 (dispatch_stamps_decodable_packets 0 (Str "Ping")
                  (fresh [] [])) ping_not_reentrant).
Defined.

Lemma dispatch_Ping_and_Pong_witness :
  load_cmd (Str "Ping") = inr ("Ping", [])
  /\ exists s' : peer fake_socket,
       _recv_packet 1 (Str "Ping") (fresh [] []) = Ret tt s'
       /\ response_queue s' = response_queue (fresh [] []) ++ [dump_Pong]
       /\ trace s' = trace (fresh [] []) ++ [Queue_put dump_Pong].
Proof.
  split; [reflexivity|].
  exact (proj1 (dispatch_Ping_and_Pong 0 (Str "Ping") [] (fresh [] []))
           eq_refl).
Defined.

Lemma dispatch_requests_reply_later_witness :
  load_cmd (Str "GetPeers") = inr ("GetPeers", [])
  /\ exists s' : peer fake_socket,
       _recv_packet 1 (Str "GetPeers") (fresh [] []) = Ret tt s'
       /\ response_queue s' = response_queue (fresh [] [])
       /\ trace s'
          = trace (fresh [] [])
              ++ [Sig_request_data_async "peers" (Some []) cb_send_Peers].
Proof.
  split; [reflexivity|].
  exact (proj1 (dispatch_requests_reply_later 0 (Str "GetPeers") []
                  (fresh [] [])) eq_refl).
Defined.

Lemma dispatch_reenters_on_command_packet_witness :
  load_cmd (Str "packet") = inr ("packet", [])
  /\ load_cmd (Lst []) = inl (Exn TypeError "packet is not a byte string")
  /\ exists s' : peer fake_socket,
       _recv_packet 2 (Str "packet") (fresh [] []) = Ret tt s'
       /\ last_valid_packet_received s' = now (fresh [] [])
       /\ response_queue s'
          = response_queue (fresh [] []) ++ [dump_Disconnect]
       /\ trace s'
          = trace (fresh [] [])
              ++ [Log_warn (exn_msg (Exn TypeError
                                       "packet is not a byte string"));
                  Queue_put dump_Disconnect; Time_sleep 2000;
                  Sig_disconnect_requested].
Proof.
  split; [reflexivity|]. split; [reflexivity|].
  exact (dispatch_reenters_on_command_packet 0 (Str "packet") []
           (Exn TypeError "packet is not a byte string") (fresh [] [])
           eq_refl eq_refl).
Defined.

Lemma recv_Disconnect_reason_lookup_witness :
  field [Str (chr 2)] 0 = Some 2
  /\ disconnect_reasons_map_by_id !! 2 = Some "Bad protocol"
  /\ _recv_Disconnect [Str (chr 2)] (fresh [] [])
     = Ret tt
         (emit Sig_disconnect_requested
            (emit (Log_info (repr (fresh [] []) +:+ " sent disconnect, "
                               +:+ "Bad protocol" +:+ " ")) (fresh [] [])))
  /\ field [Str (chr 9)] 0 = Some 9
  /\ disconnect_reasons_map_by_id !! 9 = None
  /\ _recv_Disconnect [Str (chr 9)] (fresh [] [])
     = Raise (Exn KeyError (str_of_Z 9)) (fresh [] []).
Proof.
  split; [reflexivity|]. split; [by vm_compute|].
  split.
  - apply (proj1 (proj2 (recv_Disconnect_reason_lookup [Str (chr 2)]
                           (fresh [] []))) 2 "Bad protocol");
      [reflexivity|by vm_compute].
  - split; [reflexivity|]. split; [by vm_compute|].
    apply (proj2 (proj2 (recv_Disconnect_reason_lookup [Str (chr 9)]
                           (fresh [] []))) 9);
      [reflexivity|by vm_compute].
Defined.

Lemma recv_Hello_short_payload_raises_witness :
  field [Str (chr 8)] 0 = Some PROTOCOL_VERSION
  /\ [Str (chr 8)] !! 1%nat = None
  /\ _recv_Hello [Str (chr 8)] (fresh [] [])
     = Raise (Exn IndexError "list index out of range") (fresh [] []).
Proof.
  split; [reflexivity|]. split; [reflexivity|].
  exact (proj2 (recv_Hello_short_payload_raises [Str (chr 8)] (fresh [] []))
           eq_refl eq_refl).
Defined.

Lemma recv_Peers_stops_at_first_bad_entry_witness :
  forallb entry_ok
    [([Str (chr 10); Str ""; Str ""; Str (chr 7)], chr 118 +:+ chr 95,
      Str node_A)] = true
  /\ parse_peer (Str "x")
     = inl (Exn ValueError "wrong number of values to unpack")
  /\ exists s' : peer fake_socket,
       _recv_Peers
         (map entry_item
            [([Str (chr 10); Str ""; Str ""; Str (chr 7)],
              chr 118 +:+ chr 95, Str node_A)]
            ++ Str "x" :: [Lst []]) (fresh [] [])
       = Raise (Exn ValueError "wrong number of values to unpack") s'
       /\ trace s'
          = trace (fresh [] [])
              ++ concat (map entry_events
                   [([Str (chr 10); Str ""; Str ""; Str (chr 7)],
                     chr 118 +:+ chr 95, Str node_A)])
       /\ response_queue s' = response_queue (fresh [] []).
Proof.
  split; [reflexivity|]. split; [reflexivity|].
  exact (recv_Peers_stops_at_first_bad_entry
           [([Str (chr 10); Str ""; Str ""; Str (chr 7)],
             chr 118 +:+ chr 95, Str node_A)]
           (Str "x") [Lst []]
           (Exn ValueError "wrong number of values to unpack") (fresh [] [])
           eq_refl eq_refl).
Defined.

Lemma published_address_fits_constructor_witness :
  forallb ip_byte_ok [Str (chr 10); Str ""; Str ""; Str (chr 7)] = true
  /\ exists (addr : string) (prt : Z),
       parse_peer
         (Lst [Lst [Str (chr 10); Str ""; Str ""; Str (chr 7)];
               Str (chr 118 +:+ chr 95); Str node_A])
       = inr (addr, prt, Str node_A)
       /\ (length [Str (chr 10); Str ""; Str ""; Str (chr 7)] = 4%nat ->
           exists s0 : peer fake_socket,
             Peer_init (FakeSocket [] [] false) addr (Some prt) 0 = inr s0
             /\ ip s0 = addr
             /\ port s0 = Some prt
             /\ _stopped s0 = false
             /\ response_queue s0 = []
             /\ hello_received s0 = false
             /\ hello_sent s0 = false
             /\ node_id s0 = Str "")
       /\ (length [Str (chr 10); Str ""; Str ""; Str (chr 7)] <> 4%nat ->
           Peer_init (FakeSocket [] [] false) addr (Some prt) 0
           = inl (Exn AssertionError "")).
Proof.
  split; [reflexivity|].
  exact (published_address_fits_constructor
           [Str (chr 10); Str ""; Str ""; Str (chr 7)]
           (chr 118 +:+ chr 95) (Str node_A) (FakeSocket [] [] false) 0
           eq_refl).
Defined.

End MoreRuns.
